(** * error-catch-notifier: a shallow embedding of [src/error-catch-notifier.js]

    The module keeps three module-level variables ([_isEnabled],
    [_isLoggingEnabled], [_errorSubscribers]) and exports functions that read
    and assign them, write to the console and call user-supplied functions.

    - JavaScript values are an inductive type [value]; strings are sequences
      of ASCII characters, numbers are safe integers.
    - A function object is its name, the text that [toString] returns and
      its declared parameters.  A mapping is given by those of its own
      properties that the module reads ([constructor], [call], [apply],
      [name]).  No value of the type has a [toString], a [valueOf] or a
      [filter] of its own, or inherits one from a class: those methods are
      the ones of the built-in prototypes.
    - The module-level variables are a record [State]; the console and the
      calls made to functions are recorded in its [trace] field.
    - A function of the module that can throw is a computation in the monad
      [M], which threads the [State] and returns a [completion].  The message
      of a [TypeError] raised by the runtime is the one V8 gives.
    - User functions are opaque: [behaviour f this args] says whether the call
      returns or throws.  They do not call back into this module while they
      run. *)

From Stdlib Require Import Strings.String Strings.Ascii Lists.List ZArith Bool Lia.
From Stdlib Require Import Numbers.DecimalString.
Import ListNotations.

Local Open Scope bool_scope.
Local Open Scope list_scope.
Local Open Scope string_scope.

(** ** Text primitives used by [getArgumentNames] *)

(** Line terminators: the characters that [.] of a regular expression does
    not match. *)
Definition is_line_terminator (c : ascii) : bool :=
  Nat.eqb (nat_of_ascii c) 10 || Nat.eqb (nat_of_ascii c) 13.

(** White space in the sense of [\s] and of [String.prototype.trim]:
    tab, line feed, vertical tab, form feed, carriage return, space. *)
Definition is_white_space (c : ascii) : bool :=
  let n := nat_of_ascii c in
  Nat.eqb n 9 || Nat.eqb n 10 || Nat.eqb n 11 || Nat.eqb n 12 || Nat.eqb n 13
  || Nat.eqb n 32.

(** [strip_prefix p s] is what follows [p] in [s] when [s] starts with [p]. *)
Fixpoint strip_prefix (p s : string) : option string :=
  match p with
  | EmptyString => Some s
  | String a p' =>
      match s with
      | EmptyString => None
      | String b s' => if Ascii.eqb a b then strip_prefix p' s' else None
      end
  end.

(** The negated class under a greedy star, then a closing parenthesis: the
    class takes every character up to the first closing parenthesis, which
    the literal then consumes.  The result is the text matched by the class. *)
Fixpoint until_close_paren (s : string) : option string :=
  match s with
  | EmptyString => None
  | String c rest =>
      if Ascii.eqb c ")" then Some EmptyString
      else option_map (String c) (until_close_paren rest)
  end.

(** An opening parenthesis, the capture group (any characters but a closing
    parenthesis) and the closing parenthesis, at the head of [s]: the text of
    the group. *)
Definition paren_group (s : string) : option string :=
  match s with
  | String c rest => if Ascii.eqb c "(" then until_close_paren rest else None
  | EmptyString => None
  end.

(** A lazy run of any characters followed by [k]: the lazy star first tries
    [k] where it stands and only then consumes one more character, which must
    not be a line terminator. *)
Fixpoint lazy_any_then (k : string -> option string) (s : string)
  : option string :=
  match k s with
  | Some g => Some g
  | None =>
      match s with
      | EmptyString => None
      | String c rest =>
          if is_line_terminator c then None else lazy_any_then k rest
      end
  end.

(** The pattern of line 38 (the word function, one white space, a lazy run
    of any characters, the parenthesised group) anchored at the head of [s]. *)
Definition match_here (s : string) : option string :=
  match strip_prefix "function" s with
  | Some (String c rest) =>
      if is_white_space c then lazy_any_then paren_group rest else None
  | _ => None
  end.

(** [String.prototype.match] with the pattern of line 38: the leftmost
    position at which the pattern matches; [None] is the [null] that [match]
    returns.  The result is capture group 1. *)
Fixpoint match_function_args (s : string) : option string :=
  match match_here s with
  | Some g => Some g
  | None =>
      match s with
      | EmptyString => None
      | String _ rest => match_function_args rest
      end
  end.

(** [args.split(',')] *)
Fixpoint split_comma (s : string) : list string :=
  match s with
  | EmptyString => [EmptyString]
  | String c rest =>
      if Ascii.eqb c ","
      then EmptyString :: split_comma rest
      else match split_comma rest with
           | piece :: pieces => String c piece :: pieces
           | [] => [String c EmptyString]
           end
  end.

(** A greedy run of any characters, then the comment closer: the greedy star
    takes as many characters as it can (none of them a line terminator) and
    gives them back one at a time until the closing [*/] matches.  The result
    is the text after the match. *)
Fixpoint greedy_any_then_close (s : string) : option string :=
  match s with
  | EmptyString => None
  | String c rest =>
      let longer :=
        if is_line_terminator c then None else greedy_any_then_close rest in
      match longer with
      | Some after => Some after
      | None => strip_prefix "*/" s
      end
  end.

(** [String.prototype.replace] with the pattern of line 46: the leftmost
    inline block comment is removed; without a match the text is returned as
    it is. *)
Fixpoint strip_comment (s : string) : string :=
  match s with
  | EmptyString => EmptyString
  | String c rest =>
      match strip_prefix "/*" s with
      | Some body =>
          match greedy_any_then_close body with
          | Some after => after
          | None => String c (strip_comment rest)
          end
      | None => String c (strip_comment rest)
      end
  end.

Fixpoint trim_start (s : string) : string :=
  match s with
  | EmptyString => EmptyString
  | String c rest => if is_white_space c then trim_start rest else s
  end.

Fixpoint trim_end (s : string) : string :=
  match s with
  | EmptyString => EmptyString
  | String c rest =>
      match trim_end rest with
      | EmptyString => if is_white_space c then EmptyString
                       else String c EmptyString
      | kept => String c kept
      end
  end.

(** [String.prototype.trim] *)
Definition trim (s : string) : string := trim_end (trim_start s).

(** A string is truthy when it is not empty. *)
Definition nonempty (s : string) : bool :=
  match s with EmptyString => false | String _ _ => true end.

(** The callback of lines 44 to 47. *)
Definition argsTrimCommentsAndWhiteSpace (arg : string) : string :=
  trim (strip_comment arg).

(** The callback of lines 47 to 50. *)
Definition filterUndefined (arg : string) : bool := nonempty arg.

(** Lines 44 to 50: the part of [getArgumentNames] that follows the [try]
    block. *)
Definition argument_names_of_args (args : string) : list string :=
  filter filterUndefined (map argsTrimCommentsAndWhiteSpace (split_comma args)).

(** ** Values *)

Set Warnings "-register-all".

(** A function object, as far as this module can observe it: its [name]
    property, the text that [toString] returns, and its declared parameters
    (which the module never reads: it parses the text instead). *)
Record func := mkFunc {
  fn_name : string;
  fn_source : string;
  fn_params : list string
}.

(** The properties that the module reads from a value. *)
Inductive property := p_constructor | p_call | p_apply | p_name.

Definition property_key (p : property) : string :=
  match p with
  | p_constructor => "constructor"
  | p_call => "call"
  | p_apply => "apply"
  | p_name => "name"
  end.

Definition property_eqb (p q : property) : bool :=
  match p, q with
  | p_constructor, p_constructor | p_call, p_call
  | p_apply, p_apply | p_name, p_name => true
  | _, _ => false
  end.

(** The numbers of the model are the safe integers, which print as their
    digits. *)
Definition is_safe_integer (z : Z) : bool :=
  (Z.abs z <=? 9007199254740991)%Z.

(** The values that reach the module.
    - [VNumber z safe] is a safe integer.
    - [VObject props] is a plain mapping, given by those of its own
      properties that the module reads.  It has no [filter], [toString] or
      [valueOf] of its own: the type has no such mapping, so its conversions
      are the ones of [Object.prototype].
    - [VArray], [VFunction] and [VError] carry no property of their own
      beside what is listed here.
    - [VFailback n] is the closure [errorSubscriberFailback] that
      [makeErrorSubscriberFailback n] returns.
    - [VError name message] is an error object with that name and
      message. *)
Inductive value :=
| VUndefined
| VNull
| VBool (b : bool)
| VNumber (z : Z) (safe : is_safe_integer z = true)
| VString (s : string)
| VObject (props : list (property * value))
| VArray (elems : list value)
| VFunction (f : func)
| VFailback (errorSubscriberName : value)
| VError (name message : string).

Definition TypeError (message : string) : value := VError "TypeError" message.

(** A function implemented by the runtime. *)
Definition native (name : string) : value :=
  VFunction {| fn_name := name;
               fn_source := "function " ++ name ++ "() { [native code] }";
               fn_params := [] |}.

(** The text of [errorSubscriberFailback], lines 163 to 177. *)
Definition errorSubscriberFailback_source : string :=
  "function errorSubscriberFailback(error, data) {
        if (!_isLoggingEnabled) {
            return;
        }

        if (error) {
            console.error(`Error subscriber ${errorSubscriberName} failed with error`);
            console.error(error);
        }

        if (data) {
            console.log(`Error subscriber ${errorSubscriberName} succeeded with`);
            console.log(data);
        }
    }".

Definition nat_to_string (n : nat) : string :=
  NilZero.string_of_uint (Nat.to_uint n).

Definition Z_to_string (z : Z) : string :=
  NilZero.string_of_int (Z.to_int z).

(** The string form of a value, as a template literal and [toString] produce
    it.  An array joins the string forms of its elements with commas, with
    nothing for [undefined] and [null]. *)
Fixpoint to_string (v : value) : string :=
  match v with
  | VUndefined => "undefined"
  | VNull => "null"
  | VBool b => if b then "true" else "false"
  | VNumber z _ => Z_to_string z
  | VString s => s
  | VObject _ => "[object Object]"
  | VArray elems =>
      (fix join (l : list value) : string :=
         match l with
         | [] => ""
         | x :: rest =>
             let head := match x with
                         | VUndefined | VNull => ""
                         | _ => to_string x
                         end in
             match rest with
             | [] => head
             | _ :: _ => head ++ "," ++ join rest
             end
         end) elems
  | VFunction f => fn_source f
  | VFailback _ => errorSubscriberFailback_source
  | VError name message =>
      if nonempty message then
        if nonempty name then name ++ ": " ++ message else message
      else name
  end.

(** [targetFunction.toString()]: reading the method of [undefined] or [null]
    throws, which [None] stands for. *)
Definition method_toString (v : value) : option string :=
  match v with
  | VUndefined | VNull => None
  | _ => Some (to_string v)
  end.

(** The value counts as true in a condition. *)
Definition truthy (v : value) : bool :=
  match v with
  | VUndefined | VNull => false
  | VBool b => b
  | VNumber z _ => negb (Z.eqb z 0)
  | VString s => nonempty s
  | _ => true
  end.

(** The value can be called. *)
Definition callable (v : value) : bool :=
  match v with
  | VFunction _ | VFailback _ => true
  | _ => false
  end.

(** [Array.isArray] *)
Definition isArray (v : value) : bool :=
  match v with VArray _ => true | _ => false end.

Fixpoint own_property (props : list (property * value)) (p : property)
  : option value :=
  match props with
  | [] => None
  | (k, v) :: rest => if property_eqb k p then Some v else own_property rest p
  end.

(** What a function object inherits from [Function.prototype] and carries
    itself. *)
Definition function_property (name : string) (p : property) : value :=
  match p with
  | p_constructor => native "Function"
  | p_call => native "call"
  | p_apply => native "apply"
  | p_name => VString name
  end.

(** What a value that is not a function inherits, of the properties that
    the module reads: only its constructor. *)
Definition inherited_property (ctor : string) (p : property) : value :=
  match p with
  | p_constructor => native ctor
  | _ => VUndefined
  end.

(** [obj.p].  Reading a property of [undefined] or [null] throws ([None]); a
    primitive is boxed; a mapping answers with its own property before the
    inherited one. *)
Definition get_property (obj : value) (p : property) : option value :=
  match obj with
  | VUndefined | VNull => None
  | VBool _ => Some (inherited_property "Boolean" p)
  | VNumber _ _ => Some (inherited_property "Number" p)
  | VString _ => Some (inherited_property "String" p)
  | VObject props =>
      match own_property props p with
      | Some v => Some v
      | None => Some (inherited_property "Object" p)
      end
  | VArray _ => Some (inherited_property "Array" p)
  | VFunction f => Some (function_property (fn_name f) p)
  | VFailback _ => Some (function_property "errorSubscriberFailback" p)
  | VError name _ =>
      Some (match p with p_name => VString name | _ => inherited_property name p end)
  end.

Definition truthy_property (obj : value) (p : property) : bool :=
  match get_property obj p with
  | Some v => truthy v
  | None => false
  end.

(** ** The two pure functions of the module *)

(** Lines 34 to 51.  The [try] block covers the call of [toString], the match
    and the read of index 1 of its result; when any of them throws, the
    function returns the empty array. *)
Definition getArgumentNames (targetFunction : value) : list string :=
  let args :=
    match method_toString targetFunction with
    | Some text => match_function_args text
    | None => None
    end in
  match args with
  | Some args => argument_names_of_args args
  | None => []
  end.

(** Lines 58 to 60.  The chain of [&&] stops at the first operand that is not
    truthy, so a property is read only from a truthy [obj], where the read
    cannot throw. *)
Definition isFunction (obj : value) : bool :=
  if truthy obj then
    if truthy_property obj p_constructor then
      if truthy_property obj p_call then truthy_property obj p_apply else false
    else false
  else false.

(** ** Module state and effects *)

Inductive console_method := console_warn | console_error | console_log.

(** What the module does to the outside: a console call with its argument,
    and the call of a function it was given. *)
Inductive event :=
| Console (method : console_method) (argument : value)
| Call (callee this : value) (args : list value).

(** The module-level variables of lines 5, 11 and 27, and the events so far. *)
Record State := mkState {
  _isEnabled : bool;
  _isLoggingEnabled : bool;
  _errorSubscribers : list value;
  trace : list event
}.

(** The state when the module has been loaded. *)
Definition initial_state : State :=
  {| _isEnabled := false; _isLoggingEnabled := false;
     _errorSubscribers := []; trace := [] |}.

Inductive completion (A : Type) :=
| Normal (result : A)
| Throw (thrown : value).
Arguments Normal {A} result.
Arguments Throw {A} thrown.

Definition M (A : Type) : Type := State -> completion A * State.

Definition ret {A} (a : A) : M A := fun st => (Normal a, st).

Definition bind {A B} (m : M A) (k : A -> M B) : M B :=
  fun st =>
    match m st with
    | (Normal a, st') => k a st'
    | (Throw e, st') => (Throw e, st')
    end.

Definition throw {A} (e : value) : M A := fun st => (Throw e, st).

(** [try { body } catch (e) { handler e }] *)
Definition try_catch {A} (body : M A) (handler : value -> M A) : M A :=
  fun st =>
    match body st with
    | (Normal a, st') => (Normal a, st')
    | (Throw e, st') => handler e st'
    end.

Declare Scope js_scope.
Delimit Scope js_scope with js.
Notation "x <- m ;; k" := (bind m (fun x => k))
  (at level 61, m at next level, right associativity) : js_scope.
Notation "m ;; k" := (bind m (fun _ => k))
  (at level 61, right associativity) : js_scope.
Local Open Scope js_scope.

Definition read {A} (field : State -> A) : M A := fun st => (Normal (field st), st).

Definition emit (e : event) : M unit :=
  fun st =>
    (Normal tt,
     {| _isEnabled := _isEnabled st; _isLoggingEnabled := _isLoggingEnabled st;
        _errorSubscribers := _errorSubscribers st; trace := trace st ++ [e] |}).

Definition console (method : console_method) (argument : value) : M unit :=
  emit (Console method argument).

Definition assign_isEnabled (b : bool) : M unit :=
  fun st =>
    (Normal tt,
     {| _isEnabled := b; _isLoggingEnabled := _isLoggingEnabled st;
        _errorSubscribers := _errorSubscribers st; trace := trace st |}).

Definition assign_isLoggingEnabled (b : bool) : M unit :=
  fun st =>
    (Normal tt,
     {| _isEnabled := _isEnabled st; _isLoggingEnabled := b;
        _errorSubscribers := _errorSubscribers st; trace := trace st |}).

Definition assign_errorSubscribers (subscribers : list value) : M unit :=
  fun st =>
    (Normal tt,
     {| _isEnabled := _isEnabled st; _isLoggingEnabled := _isLoggingEnabled st;
        _errorSubscribers := subscribers; trace := trace st |}).

(** [obj.p] as a computation: a [TypeError] when [obj] is [undefined] or
    [null]. *)
Definition read_property (obj : value) (p : property) : M value :=
  match get_property obj p with
  | Some v => ret v
  | None =>
      throw (TypeError ("Cannot read properties of " ++ to_string obj
                        ++ " (reading '" ++ property_key p ++ "')"))
  end.

(** A parameter with a default takes it when the argument is [undefined]. *)
Definition with_default (argument default : value) : value :=
  match argument with
  | VUndefined => default
  | _ => argument
  end.

Definition argument (n : nat) (args : list value) : value :=
  nth n args VUndefined.

(** ** The subscriber list *)

(** [subscriberFunctionArgumentNames[0] === 'error']; index 0 of an empty
    array is [undefined]. *)
Definition first_is_error (names : list string) : bool :=
  match names with
  | first :: _ => String.eqb first "error"
  | [] => false
  end.

(** The callback of lines 63 to 86. *)
Definition errorSubscriberFunctionsFilter (subscriberCallback : value)
    (index : nat) : M bool :=
  if negb (isFunction subscriberCallback) then
    isLoggingEnabled <- read _isLoggingEnabled ;;
    (if isLoggingEnabled : bool then
       console console_warn
         (VString ("Skipping error subscriber: " ++ to_string subscriberCallback
                   ++ " at errorSubscribers index " ++ nat_to_string index)) ;;
       console console_warn (VString "Subscriber is not a function")
     else ret tt) ;;
    ret false
  else
    let subscriberFunctionArgumentNames := getArgumentNames subscriberCallback in
    if negb (first_is_error subscriberFunctionArgumentNames) then
      isLoggingEnabled <- read _isLoggingEnabled ;;
      (if isLoggingEnabled : bool then
         name <- read_property subscriberCallback p_name ;;
         console console_warn
           (VString ("Skipping error subscriber: " ++ to_string name)) ;;
         console console_warn
           (VString "First argument of subscriber function must be named error")
       else ret tt) ;;
      ret false
    else ret true.

(** [Array.prototype.filter]: the callback is called on each element with its
    index, in order; the elements for which it answers true are kept. *)
Fixpoint array_filter (callback : value -> nat -> M bool) (elems : list value)
    (index : nat) : M (list value) :=
  match elems with
  | [] => ret []
  | x :: rest =>
      keep <- callback x index ;;
      kept <- array_filter callback rest (S index) ;;
      ret (if keep : bool then x :: kept else kept)
  end.

(** Lines 62 to 87.  The parameter defaults to the empty array.  The method
    [filter] exists on arrays only: reading it from [null] throws, and calling
    what any other value answers (nothing callable) throws as well. *)
Definition buildSubscriberList (errorSubscriberFunctions : value)
  : M (list value) :=
  match with_default errorSubscriberFunctions (VArray []) with
  | VArray elems => array_filter errorSubscriberFunctionsFilter elems 0
  | VNull =>
      throw (TypeError "Cannot read properties of null (reading 'filter')")
  | _ => throw (TypeError "errorSubscriberFunctions.filter is not a function")
  end.

(** ** Configuration *)

(** Lines 92 to 94. *)
Definition enableLogging : M unit := assign_isLoggingEnabled true.

(** Lines 96 to 98. *)
Definition disableLogging : M unit := assign_isLoggingEnabled false.

(** Lines 103 to 115. *)
Definition enableErrorCatching : M unit :=
  errorSubscribers <- read _errorSubscribers ;;
  if Nat.eqb (List.length errorSubscribers) 0 then
    isLoggingEnabled <- read _isLoggingEnabled ;;
    (if isLoggingEnabled : bool then
       console console_warn
         (VString "No valid error subscribers provided. Use init to pass valid error subscribers")
     else ret tt) ;;
    assign_isEnabled false
  else
    assign_isEnabled true.

(** Lines 120 to 124. *)
Definition disableErrorCatching : M bool :=
  assign_isEnabled false ;;
  ret true.

(** Lines 133 to 147.  The [return] of line 140 is inside the test of
    [_isLoggingEnabled]: without logging, control leaves the outer [if] and
    reaches line 144 with the value that is not an array. *)
Definition initErrorCatchNotifier
    (errorSubscriberFunctions enabled loggingEnabled : value) : M unit :=
  let errorSubscriberFunctions := with_default errorSubscriberFunctions (VArray []) in
  let enabled := with_default enabled (VBool false) in
  let loggingEnabled := with_default loggingEnabled (VBool false) in
  let lines_144_to_146 : M unit :=
    subscribers <- buildSubscriberList errorSubscriberFunctions ;;
    assign_errorSubscribers subscribers ;;
    (if truthy enabled then enableErrorCatching
     else (disableErrorCatching ;; ret tt)) in
  (if truthy loggingEnabled then enableLogging else disableLogging) ;;
  if negb (isArray errorSubscriberFunctions) then
    isLoggingEnabled <- read _isLoggingEnabled ;;
    if isLoggingEnabled : bool then
      console console_error
        (VString "errorSubscriberFunctions must be an array of functions")
    else lines_144_to_146
  else lines_144_to_146.

(** Lines 229 to 231 and 237 to 239. *)
Definition getIsEnabled : M bool := read _isEnabled.
Definition getIsLoggingEnabled : M bool := read _isLoggingEnabled.

(** ** Failback *)

(** The closure of lines 163 to 177, for the name it was made with. *)
Definition errorSubscriberFailback (errorSubscriberName error data : value)
  : M unit :=
  isLoggingEnabled <- read _isLoggingEnabled ;;
  if negb isLoggingEnabled then ret tt
  else
    (if truthy error then
       console console_error
         (VString ("Error subscriber " ++ to_string errorSubscriberName
                   ++ " failed with error")) ;;
       console console_error error
     else ret tt) ;;
    (if truthy data then
       console console_log
         (VString ("Error subscriber " ++ to_string errorSubscriberName
                   ++ " succeeded with")) ;;
       console console_log data
     else ret tt).

(** Lines 162 to 178. *)
Definition makeErrorSubscriberFailback (errorSubscriberName : value) : value :=
  VFailback errorSubscriberName.

(** ** Calls, notification and wrapping *)

Section Calls.

(** What a user function does when it is called with a receiver and
    arguments: it returns a value or throws one. *)
Variable behaviour : func -> value -> list value -> completion value.

(** [callee(...args)] with receiver [this].  A value that cannot be called
    makes the call throw a [TypeError], whose message names the expression
    that was called; the call of a function is recorded. *)
Definition call_value (callee_text : string) (callee this : value)
    (args : list value) : M value :=
  match callee with
  | VFunction f =>
      emit (Call callee this args) ;;
      (fun st => (behaviour f this args, st))
  | VFailback errorSubscriberName =>
      emit (Call callee this args) ;;
      errorSubscriberFailback errorSubscriberName (argument 0 args) (argument 1 args) ;;
      ret VUndefined
  | _ => throw (TypeError (callee_text ++ " is not a function"))
  end.

(** [targetFunction.apply(this, args)].  A function answers with
    [Function.prototype.apply], which calls it; any other value answers with
    its property [apply], which is then called with the target as receiver. *)
Definition apply_method (targetFunction this : value) (args : list value)
  : M value :=
  if callable targetFunction then
    call_value "targetFunction" targetFunction this args
  else
    apply <- read_property targetFunction p_apply ;;
    call_value "targetFunction.apply" apply targetFunction [this; VArray args].

(** One turn of the loop of lines 186 to 198.  The answer says whether the
    loop goes on: the [return] of line 192 leaves the function. *)
Definition notify_one (errorSubscriber error options : value) : M bool :=
  try_catch
    (name <- read_property errorSubscriber p_name ;;
     call_value "errorSubscriber" errorSubscriber VUndefined
       [error; options; makeErrorSubscriberFailback name] ;;
     ret true)
    (fun catchError =>
       isLoggingEnabled <- read _isLoggingEnabled ;;
       if negb isLoggingEnabled then ret false
       else
         name <- read_property errorSubscriber p_name ;;
         console console_error
           (VString ("Skipping error subscriber: " ++ to_string name)) ;;
         console console_error catchError ;;
         ret true).

(** The loop of lines 186 to 198, from the subscriber at the current index
    on.  Nothing in the loop assigns [_errorSubscribers], so the loop runs
    over the list it finds when it starts. *)
Fixpoint notify_from (subscribers : list value) (error options : value)
  : M unit :=
  match subscribers with
  | [] => ret tt
  | errorSubscriber :: later =>
      go_on <- notify_one errorSubscriber error options ;;
      if go_on : bool then notify_from later error options else ret tt
  end.

(** Lines 185 to 199. *)
Definition notifyErrorSubscribers (error options : value) : M unit :=
  errorSubscribers <- read _errorSubscribers ;;
  notify_from errorSubscribers error options.

(** The closure [wrappedFunction] of lines 208 to 222, for the target and the
    options it was made with, called with receiver [this]. *)
Definition wrappedFunction (targetFunction options this : value)
    (args : list value) : M value :=
  isEnabled <- read _isEnabled ;;
  if negb isEnabled then apply_method targetFunction this args
  else
    try_catch
      (apply_method targetFunction this args)
      (fun error => notifyErrorSubscribers error options ;; ret VUndefined).

(** Lines 207 to 223. *)
Definition wrap (targetFunction options : value)
  : value -> list value -> M value :=
  wrappedFunction targetFunction options.

End Calls.

(** ** Notions used to state the properties *)

Fixpoint string_forall (p : ascii -> bool) (s : string) : bool :=
  match s with
  | EmptyString => true
  | String c rest => p c && string_forall p rest
  end.

(** The text shows a parameter list after a function keyword: the word
    function, a white space, some text on the same line, and a parenthesised
    list. *)
Definition has_parameter_list (text : string) : Prop :=
  exists before space between params after,
    text = before ++ "function"
                  ++ String space (between ++ "(" ++ params ++ ")" ++ after)
    /\ is_white_space space = true
    /\ string_forall (fun c => negb (is_line_terminator c)) between = true.

(** The text begins with the function keyword: it is the text of a function
    declaration or expression, not of an arrow function or a method. *)
Definition declared_with_keyword (text : string) : bool :=
  match strip_prefix "function" text with
  | Some _ => true
  | None => false
  end.

(** The name of the first declared parameter of a callable value. *)
Definition first_declared_parameter (v : value) : option string :=
  match v with
  | VFunction f => hd_error (fn_params f)
  | VFailback _ => Some "error"
  | _ => None
  end.

(** The test that [errorSubscriberFunctionsFilter] applies to a candidate. *)
Definition passes_filter (candidate : value) : bool :=
  isFunction candidate && first_is_error (getArgumentNames candidate).

(** [Subsequence l1 l2]: [l1] is [l2] with some elements left out. *)
Inductive Subsequence {A : Type} : list A -> list A -> Prop :=
| Subsequence_nil : Subsequence [] []
| Subsequence_skip x l1 l2 : Subsequence l1 l2 -> Subsequence l1 (x :: l2)
| Subsequence_keep x l1 l2 : Subsequence l1 l2 -> Subsequence (x :: l1) (x :: l2).

(** The argument was supplied: it is not [undefined]. *)
Definition present (v : value) : bool :=
  match v with
  | VUndefined => false
  | _ => true
  end.

Definition add_events (events : list event) (st : State) : State :=
  {| _isEnabled := _isEnabled st; _isLoggingEnabled := _isLoggingEnabled st;
     _errorSubscribers := _errorSubscribers st;
     trace := trace st ++ events |}.

(** A computation that leaves the configuration alone and only adds events. *)
Definition extends {A : Type} (m : M A) : Prop :=
  forall st, exists events, snd (m st) = add_events events st.


(** The calls among the events. *)
Definition is_call (e : event) : bool :=
  match e with Call _ _ _ => true | Console _ _ => false end.

Definition calls_of (events : list event) : list event := filter is_call events.

(** The value of [errorSubscriber.name] for a subscriber. *)
Definition name_of (errorSubscriber : value) : value :=
  match get_property errorSubscriber p_name with
  | Some v => v
  | None => VUndefined
  end.

(** The call that the notifier makes to a subscriber. *)
Definition subscriber_call (errorSubscriber error options : value) : event :=
  Call errorSubscriber VUndefined
       [error; options; makeErrorSubscriberFailback (name_of errorSubscriber)].

(** The lines that a failback writes. *)
Definition failback_events (logging : bool) (name error data : value)
  : list event :=
  if logging then
    (if truthy error then
       [Console console_error
          (VString ("Error subscriber " ++ to_string name ++ " failed with error"));
        Console console_error error]
     else [])
    ++ (if truthy data then
          [Console console_log
             (VString ("Error subscriber " ++ to_string name ++ " succeeded with"));
           Console console_log data]
        else [])
  else [].

(** The two lines that the notifier writes for a subscriber that threw. *)
Definition skipping_lines (errorSubscriber catchError : value) : list event :=
  [Console console_error
     (VString ("Skipping error subscriber: " ++ to_string (name_of errorSubscriber)));
   Console console_error catchError].

Section Outcomes.

Variable behaviour : func -> value -> list value -> completion value.

(** How the call of a subscriber by the notifier ends. *)
Definition subscriber_outcome (errorSubscriber error options : value)
  : completion value :=
  match errorSubscriber with
  | VFunction f =>
      behaviour f VUndefined
        [error; options; makeErrorSubscriberFailback (name_of errorSubscriber)]
  | VFailback _ => Normal VUndefined
  | _ => Throw (TypeError "errorSubscriber is not a function")
  end.

Definition subscriber_throws (errorSubscriber error options : value) : Prop :=
  exists catchError,
    subscriber_outcome errorSubscriber error options = Throw catchError.

(** What a subscriber that is a failback writes when it is called with
    the error and the options. *)
Definition own_events (logging : bool) (errorSubscriber error options : value)
  : list event :=
  match errorSubscriber with
  | VFailback name => failback_events logging name error options
  | _ => []
  end.

(** The events of one turn of the loop of the notifier. *)
Definition turn_events (logging : bool) (errorSubscriber error options : value)
  : list event :=
  subscriber_call errorSubscriber error options
  :: own_events logging errorSubscriber error options
  ++ match subscriber_outcome errorSubscriber error options with
     | Throw catchError =>
         if logging then skipping_lines errorSubscriber catchError else []
     | Normal _ => []
     end.

(** Whether the loop goes on after the turn. *)
Definition turn_goes_on (logging : bool) (errorSubscriber error options : value)
  : bool :=
  match subscriber_outcome errorSubscriber error options with
  | Throw _ => logging
  | Normal _ => true
  end.

(** The events of a whole cycle over the subscribers. *)
Fixpoint cycle_events (logging : bool) (subscribers : list value)
    (error options : value) : list event :=
  match subscribers with
  | [] => []
  | errorSubscriber :: later =>
      turn_events logging errorSubscriber error options
      ++ (if turn_goes_on logging errorSubscriber error options
          then cycle_events logging later error options
          else [])
  end.





End Outcomes.

(** ** Parameter lists as they are written *)

(** A character of a parameter name: no white space, no comma, no closing
    parenthesis, no slash. *)
Definition name_character (c : ascii) : bool :=
  negb (is_white_space c) && negb (Ascii.eqb c ",") && negb (Ascii.eqb c ")")
  && negb (Ascii.eqb c "/").

(** A character of an inline comment that stays inside one parameter: no
    line terminator, no comma, no closing parenthesis. *)
Definition comment_character (c : ascii) : bool :=
  negb (is_line_terminator c) && negb (Ascii.eqb c ",") && negb (Ascii.eqb c ")").

(** One parameter as it stands between two commas: white space, the name,
    white space, an inline block comment or none, white space. *)
Record parameter := mkParameter {
  param_lead : string;
  param_name : string;
  param_gap : string;
  param_comment : option string;
  param_trail : string
}.

Definition comment_text (comment : option string) : string :=
  match comment with
  | Some body => "/*" ++ body ++ "*/"
  | None => ""
  end.

Definition parameter_text (p : parameter) : string :=
  param_lead p ++ param_name p ++ param_gap p
  ++ comment_text (param_comment p) ++ param_trail p.

Definition parameter_ok (p : parameter) : bool :=
  string_forall is_white_space (param_lead p)
  && nonempty (param_name p)
  && string_forall name_character (param_name p)
  && string_forall is_white_space (param_gap p)
  && match param_comment p with
     | Some body => string_forall comment_character body
     | None => true
     end
  && string_forall is_white_space (param_trail p).

(** The text between the parentheses. *)
Definition parameter_list_text (ps : list parameter) : string :=
  String.concat "," (map parameter_text ps).

(** A character of the text between the function keyword and the opening
    parenthesis: no opening parenthesis, no line terminator. *)
Definition heading_character (c : ascii) : bool :=
  negb (Ascii.eqb c "(") && negb (is_line_terminator c).

(** The text of a function: the keyword, a white space, the heading (the
    name, if any), the parenthesised text and the rest. *)
Definition function_text (space : ascii) (heading params rest : string)
  : string :=
  "function" ++ String space (heading ++ "(" ++ params ++ ")" ++ rest).

(** ** What the filter writes *)

(** The two warnings that [errorSubscriberFunctionsFilter] writes about a
    candidate at an index while logging is enabled, and nothing for a
    candidate that it keeps. *)
Definition rejection_lines (candidate : value) (index : nat) : list event :=
  if isFunction candidate then
    if first_is_error (getArgumentNames candidate) then []
    else
      [Console console_warn
         (VString ("Skipping error subscriber: " ++ to_string (name_of candidate)));
       Console console_warn
         (VString "First argument of subscriber function must be named error")]
  else
    [Console console_warn
       (VString ("Skipping error subscriber: " ++ to_string candidate
                 ++ " at errorSubscribers index " ++ nat_to_string index));
     Console console_warn (VString "Subscriber is not a function")].

(** The warnings about the candidates of an array, from an index on. *)
Fixpoint rejections (candidates : list value) (index : nat) : list event :=
  match candidates with
  | [] => []
  | candidate :: rest =>
      rejection_lines candidate index ++ rejections rest (S index)
  end.

Definition is_warning (e : event) : bool :=
  match e with
  | Console console_warn _ => true
  | _ => false
  end.


(** The warning of [enableErrorCatching]. *)
Definition no_subscribers_warning : event :=
  Console console_warn
    (VString "No valid error subscribers provided. Use init to pass valid error subscribers").

(** ** Fixtures: the functions of the test suite and a few more *)

(** [function errorSubscriber(error) {}] *)
Definition errorSubscriber : func :=
  {| fn_name := "errorSubscriber";
     fn_source := "function errorSubscriber(error) {}";
     fn_params := ["error"] |}.

(** [function badErrorSubscriber() {}] *)
Definition badErrorSubscriber : func :=
  {| fn_name := "badErrorSubscriber";
     fn_source := "function badErrorSubscriber() {}";
     fn_params := [] |}.

(** [function failingSubscriber(error) { throw 'boom'; }] *)
Definition failingSubscriber : func :=
  {| fn_name := "failingSubscriber";
     fn_source := "function failingSubscriber(error) { throw 'boom'; }";
     fn_params := ["error"] |}.

(** [(error) => {}] *)
Definition arrowSubscriber : func :=
  {| fn_name := "arrowSubscriber";
     fn_source := "(error) => {}";
     fn_params := ["error"] |}.

(** [(a) => function inner(error, y) {}] *)
Definition arrowReturningFunction : func :=
  {| fn_name := "arrowReturningFunction";
     fn_source := "(a) => function inner(error, y) {}";
     fn_params := ["a"] |}.

(** [function (argument1 /*inline comment*/, argument2) { return true; }] *)
Definition functionFixture : func :=
  {| fn_name := "functionFixture";
     fn_source := "function (argument1 /*inline comment*/, argument2) { return true; }";
     fn_params := ["argument1"; "argument2"] |}.

(** [function errorFunction() { throw testError; }] *)
Definition errorFunction : func :=
  {| fn_name := "errorFunction";
     fn_source := "function errorFunction() { throw testError; }";
     fn_params := [] |}.

Definition testError : value := VError "Error" "testError".

(** The behaviour of the fixtures: [failingSubscriber] throws the string
    boom, [errorFunction] throws [testError], every other function returns
    [undefined]. *)
Definition fixture_behaviour (f : func) (this : value) (args : list value)
  : completion value :=
  if String.eqb (fn_name f) "failingSubscriber" then Throw (VString "boom")
  else if String.eqb (fn_name f) "errorFunction" then Throw testError
  else Normal VUndefined.

(** The parameters of [functionFixture] as they are written. *)
Definition functionFixture_parameters : list parameter :=
  [ {| param_lead := ""; param_name := "argument1"; param_gap := " ";
       param_comment := Some "inline comment"; param_trail := "" |};
    {| param_lead := " "; param_name := "argument2"; param_gap := "";
       param_comment := None; param_trail := "" |} ].

(** The parameter of [errorSubscriber] as it is written. *)
Definition errorSubscriber_parameters : list parameter :=
  [ {| param_lead := ""; param_name := "error"; param_gap := "";
       param_comment := None; param_trail := "" |} ].

(** The state after [initErrorCatchNotifier([errorSubscriber], true)]. *)
Definition state_with_subscriber : State :=
  {| _isEnabled := true; _isLoggingEnabled := false;
     _errorSubscribers := [VFunction errorSubscriber]; trace := [] |}.

(** [{ call: true, apply: true }] *)
Definition duck : value :=
  VObject [(p_call, VBool true); (p_apply, VBool true)].

(** A state in which a subscriber that throws is stored before one that
    returns. *)
Definition state_with_failing_subscriber (logging : bool) : State :=
  {| _isEnabled := true; _isLoggingEnabled := logging;
     _errorSubscribers := [VFunction failingSubscriber; VFunction errorSubscriber];
     trace := [] |}.

(** * Properties *)

Local Arguments Ascii.eqb : simpl never.

(** ** Text *)

Lemma append_assoc (a b c : string) : (a ++ b) ++ c = a ++ (b ++ c).
Proof.
  induction a as [|x a IH]; simpl; [reflexivity | now rewrite IH].
Qed.

Lemma strip_prefix_some (p s r : string) :
  strip_prefix p s = Some r -> s = p ++ r.
Proof.
  revert s. induction p as [|a p IH]; intros s H; simpl in *.
  - now inversion H.
  - destruct s as [|b s]; [discriminate|].
    destruct (Ascii.eqb_spec a b) as [->|]; [|discriminate].
    now rewrite (IH _ H).
Qed.

Lemma strip_prefix_append (p r : string) : strip_prefix p (p ++ r) = Some r.
Proof.
  induction p as [|a p IH]; simpl; [reflexivity|].
  now rewrite Ascii.eqb_refl.
Qed.

Lemma until_close_paren_some (s g : string) :
  until_close_paren s = Some g -> exists after, s = g ++ ")" ++ after.
Proof.
  revert g. induction s as [|c s IH]; intros g H; simpl in H; [discriminate|].
  destruct (Ascii.eqb_spec c ")") as [->|].
  - inversion H; subst. now exists s.
  - destruct (until_close_paren s) as [g'|]; [|discriminate].
    inversion H; subst. destruct (IH _ eq_refl) as [after ->].
    now exists after.
Qed.

Lemma until_close_paren_append (params after : string) :
  until_close_paren (params ++ ")" ++ after) <> None.
Proof.
  induction params as [|c params IH]; simpl in *; [discriminate|].
  destruct (Ascii.eqb c ")"); [discriminate|].
  destruct (until_close_paren _); [simpl; discriminate|].
  now elim IH.
Qed.

Lemma lazy_any_then_some (s g : string) :
  lazy_any_then paren_group s = Some g ->
  exists between after,
    s = between ++ "(" ++ g ++ ")" ++ after
    /\ string_forall (fun c => negb (is_line_terminator c)) between = true.
Proof.
  revert g. induction s as [|c s IH]; intros g H; simpl in H; [discriminate|].
  destruct (Ascii.eqb_spec c "(") as [->|Hc].
  - destruct (until_close_paren s) as [g'|] eqn:E.
    + inversion H; subst. destruct (until_close_paren_some _ _ E) as [after ->].
      now exists "", after.
    + simpl in H. destruct (IH _ H) as (between & after & -> & Hb).
      exists (String "(" between), after. now split.
  - destruct (is_line_terminator c) eqn:E; [discriminate|].
    destruct (IH _ H) as (between & after & -> & Hb).
    exists (String c between), after. split; [reflexivity|].
    simpl. now rewrite E.
Qed.

Lemma lazy_any_then_append (between params after : string) :
  string_forall (fun c => negb (is_line_terminator c)) between = true ->
  lazy_any_then paren_group (between ++ "(" ++ params ++ ")" ++ after) <> None.
Proof.
  induction between as [|c between IH]; intros Hb.
  - pose proof (until_close_paren_append params after) as Hp.
    simpl in *. destruct (until_close_paren _); [discriminate | now elim Hp].
  - simpl in Hb. apply andb_prop in Hb as [Hc Hb].
    apply negb_true_iff in Hc. specialize (IH Hb).
    cbn [append lazy_any_then].
    destruct (paren_group _); [discriminate|].
    now rewrite Hc.
Qed.

Lemma match_here_some (s g : string) :
  match_here s = Some g -> has_parameter_list s.
Proof.
  unfold match_here. intros H.
  destruct (strip_prefix "function" s) as [[|c rest]|] eqn:E; try discriminate.
  destruct (is_white_space c) eqn:Hc; [|discriminate].
  apply strip_prefix_some in E.
  destruct (lazy_any_then_some _ _ H) as (between & after & -> & Hb).
  exists "", c, between, g, after. now repeat split.
Qed.

(** A match of the pattern shows a parameter list in the text. *)
Lemma match_function_args_some (s g : string) :
  match_function_args s = Some g -> has_parameter_list s.
Proof.
  induction s as [|c s IH]; intros H.
  - cbn in H. discriminate.
  - cbn [match_function_args] in H.
    destruct (match_here (String c s)) as [g'|] eqn:E.
    + now apply match_here_some with g'.
    + destruct (IH H) as (before & space & between & params & after & -> & Hs & Hb).
      exists (String c before), space, between, params, after. now repeat split.
Qed.

(** A text that shows a parameter list is matched by the pattern. *)
Lemma match_function_args_complete (s : string) :
  has_parameter_list s -> match_function_args s <> None.
Proof.
  intros (before & space & between & params & after & -> & Hs & Hb).
  induction before as [|c before IH].
  - assert (match_here ("function"
              ++ String space (between ++ "(" ++ params ++ ")" ++ after)) <> None)
      as Hm.
    { unfold match_here. rewrite strip_prefix_append, Hs.
      now apply lazy_any_then_append. }
    change ("" ++ "function" ++ String space (between ++ "(" ++ params ++ ")" ++ after))
      with (String "f" ("unction" ++ String space (between ++ "(" ++ params ++ ")" ++ after))).
    change ("function" ++ String space (between ++ "(" ++ params ++ ")" ++ after))
      with (String "f" ("unction" ++ String space (between ++ "(" ++ params ++ ")" ++ after)))
      in Hm.
    cbn [match_function_args].
    destruct (match_here _); [discriminate | now elim Hm].
  - cbn [append match_function_args].
    destruct (match_here _); [discriminate | exact IH].
Qed.

Lemma white_space_is_plain (c : ascii) :
  is_white_space c = true ->
  Ascii.eqb c "," = false /\ Ascii.eqb c "/" = false /\ Ascii.eqb c ")" = false.
Proof.
  intros H. repeat split.
  - destruct (Ascii.eqb_spec c ","); [subst; discriminate | reflexivity].
  - destruct (Ascii.eqb_spec c "/"); [subst; discriminate | reflexivity].
  - destruct (Ascii.eqb_spec c ")"); [subst; discriminate | reflexivity].
Qed.

Lemma split_comma_white_space (s : string) :
  string_forall is_white_space s = true -> split_comma s = [s].
Proof.
  induction s as [|c s IH]; intros H; simpl in *; [reflexivity|].
  apply andb_prop in H as [Hc Hs].
  destruct (white_space_is_plain c Hc) as (-> & _ & _).
  now rewrite (IH Hs).
Qed.

Lemma strip_comment_white_space (s : string) :
  string_forall is_white_space s = true -> strip_comment s = s.
Proof.
  induction s as [|c s IH]; intros H; simpl in *; [reflexivity|].
  apply andb_prop in H as [Hc Hs].
  destruct (white_space_is_plain c Hc) as (_ & Hslash & _).
  rewrite Ascii.eqb_sym in Hslash. rewrite Hslash.
  now rewrite (IH Hs).
Qed.

Lemma trim_white_space (s : string) :
  string_forall is_white_space s = true -> trim s = "".
Proof.
  unfold trim. induction s as [|c s IH]; intros H; simpl in *; [reflexivity|].
  apply andb_prop in H as [Hc Hs]. rewrite Hc. now apply IH.
Qed.

(** A parameter list that holds white space only gives no name. *)
Lemma argument_names_of_white_space (params : string) :
  string_forall is_white_space params = true ->
  argument_names_of_args params = [].
Proof.
  intros H. unfold argument_names_of_args, argsTrimCommentsAndWhiteSpace.
  rewrite (split_comma_white_space _ H). simpl.
  now rewrite (strip_comment_white_space _ H), (trim_white_space _ H).
Qed.

Lemma until_close_paren_white_space (params body : string) :
  string_forall is_white_space params = true ->
  until_close_paren (params ++ ")" ++ body) = Some params.
Proof.
  induction params as [|c params IH]; intros H; simpl in *; [reflexivity|].
  apply andb_prop in H as [Hc Hs].
  destruct (white_space_is_plain c Hc) as (_ & _ & ->).
  now rewrite (IH Hs).
Qed.

Lemma lazy_any_then_first_paren (name rest : string) (g : string) :
  string_forall (fun c => negb (Ascii.eqb c "(") && negb (is_line_terminator c))
                name = true ->
  until_close_paren rest = Some g ->
  lazy_any_then paren_group (name ++ "(" ++ rest) = Some g.
Proof.
  intros Hn Hg. induction name as [|c name IH]; simpl in *.
  - now rewrite Hg.
  - apply andb_prop in Hn as [Hc Hn]. apply andb_prop in Hc as [Hp Hl].
    apply negb_true_iff in Hp, Hl. rewrite Hp, Hl. now apply IH.
Qed.

Lemma match_function_args_at_head (space : ascii) (rest g : string) :
  is_white_space space = true ->
  lazy_any_then paren_group rest = Some g ->
  match_function_args ("function" ++ String space rest) = Some g.
Proof.
  intros Hs Hg.
  assert (match_here ("function" ++ String space rest) = Some g) as Hm.
  { unfold match_here. now rewrite strip_prefix_append, Hs. }
  change ("function" ++ String space rest)
    with (String "f" ("unction" ++ String space rest)) in *.
  cbn [match_function_args]. now rewrite Hm.
Qed.

Lemma filter_nonempty (l : list string) :
  Forall (fun name => name <> "") (filter filterUndefined l).
Proof.
  apply Forall_forall. intros name H. apply filter_In in H as [_ H].
  now destruct name.
Qed.

(** ** [getArgumentNames] *)

(** C8, as the code has it: [getArgumentNames] answers for every input.
    When the text of the input shows no parameter list after a function
    keyword anywhere (an arrow function without a function expression inside
    it, for one), the answer is the empty sequence: the failed match is
    caught.
    For a function declared with an empty parameter list (white space at
    most between the parentheses) the answer is the empty sequence too, and
    no answer ever holds an empty name. *)
Theorem getArgumentNames_degrades_to_empty (targetFunction : value) :
  ((forall text, method_toString targetFunction = Some text ->
                 ~ has_parameter_list text) ->
   getArgumentNames targetFunction = [])
  /\ (forall space name params body,
        method_toString targetFunction
        = Some ("function" ++ String space (name ++ "(" ++ params ++ ")" ++ body)) ->
        is_white_space space = true ->
        string_forall
          (fun c => negb (Ascii.eqb c "(") && negb (is_line_terminator c))
          name = true ->
        string_forall is_white_space params = true ->
        getArgumentNames targetFunction = [])
  /\ Forall (fun name => name <> "") (getArgumentNames targetFunction).
Proof.
  unfold getArgumentNames. repeat split.
  - intros H. destruct (method_toString targetFunction) as [text|]; [|reflexivity].
    destruct (match_function_args text) as [args|] eqn:E; [|reflexivity].
    elim (H text eq_refl). now apply match_function_args_some with args.
  - intros space name params body -> Hs Hn Hp.
    rewrite (match_function_args_at_head space _ params Hs).
    + now apply argument_names_of_white_space.
    + apply lazy_any_then_first_paren; [exact Hn|].
      now apply until_close_paren_white_space.
  - destruct (method_toString targetFunction) as [text|]; [|constructor].
    destruct (match_function_args text); [|constructor].
    apply filter_nonempty.
Qed.

(** ** [isFunction] *)

Lemma callable_isFunction (obj : value) :
  callable obj = true -> isFunction obj = true.
Proof.
  destruct obj; simpl; intros H; try discriminate; reflexivity.
Qed.

(** On the values of the model, where only a mapping carries properties of
    its own: [isFunction] answers true for every callable value and for a
    mapping with truthy [call] and [apply] (and no [constructor] that is not
    truthy), and false for every other value. *)
Lemma isFunction_iff_capabilities (obj : value) :
  isFunction obj = true <->
  callable obj = true
  \/ exists props call apply,
       obj = VObject props
       /\ own_property props p_call = Some call /\ truthy call = true
       /\ own_property props p_apply = Some apply /\ truthy apply = true
       /\ (forall c, own_property props p_constructor = Some c -> truthy c = true).
Proof.
  split.
  - destruct obj as [| |b|z|s|props|elems|f|n|name message];
      try (now left); try discriminate.
    + unfold isFunction. simpl. destruct b; discriminate.
    + unfold isFunction. simpl. destruct (negb (z =? 0)%Z); discriminate.
    + unfold isFunction. simpl. destruct (nonempty s); discriminate.
    + unfold isFunction, truthy_property. simpl. intros H. right.
      destruct (own_property props p_call) as [call|] eqn:Ecall.
      2:{ destruct (own_property props p_constructor) as [c|];
            [destruct (truthy c)|]; discriminate. }
      destruct (own_property props p_apply) as [apply|] eqn:Eapply.
      2:{ destruct (own_property props p_constructor) as [c|];
            [destruct (truthy c)|]; destruct (truthy call); discriminate. }
      exists props, call, apply.
      destruct (own_property props p_constructor) as [c|].
      * destruct (truthy c) eqn:Ec; [|discriminate].
        destruct (truthy call); [|discriminate].
        repeat split; try assumption. intros c' Hc'. now inversion Hc'; subst.
      * destruct (truthy call); [|discriminate].
        repeat split; try assumption. discriminate.
  - intros [H | (props & call & apply & -> & Ecall & Hcall & Eapply & Happly & Hctor)].
    + now apply callable_isFunction.
    + unfold isFunction, truthy_property. simpl. rewrite Ecall, Eapply, Hcall, Happly.
      destruct (own_property props p_constructor) as [c|]; [|reflexivity].
      now rewrite (Hctor c eq_refl).
Qed.

(** ** Effects *)

Lemma add_events_nil (st : State) : add_events [] st = st.
Proof.
  destruct st. unfold add_events. simpl. now rewrite app_nil_r.
Qed.

Lemma add_events_app (e1 e2 : list event) (st : State) :
  add_events e2 (add_events e1 st) = add_events (e1 ++ e2) st.
Proof.
  unfold add_events. simpl. now rewrite app_assoc.
Qed.

Lemma extends_ret {A} (a : A) : extends (ret a).
Proof. intros st. exists []. simpl. now rewrite add_events_nil. Qed.

Lemma extends_throw {A} (e : value) : extends (@throw A e).
Proof. intros st. exists []. simpl. now rewrite add_events_nil. Qed.

Lemma extends_read {A} (field : State -> A) : extends (read field).
Proof. intros st. exists []. simpl. now rewrite add_events_nil. Qed.

Lemma extends_emit (e : event) : extends (emit e).
Proof. intros st. now exists [e]. Qed.

Lemma extends_pure {A} (c : completion A) : extends (fun st => (c, st)).
Proof. intros st. exists []. simpl. now rewrite add_events_nil. Qed.

Lemma extends_bind {A B} (m : M A) (k : A -> M B) :
  extends m -> (forall a, extends (k a)) -> extends (bind m k).
Proof.
  intros Hm Hk st. unfold bind. destruct (Hm st) as [e1 H1].
  destruct (m st) as [[a|x] st1]; simpl in H1; subst st1.
  - destruct (Hk a (add_events e1 st)) as [e2 H2].
    exists (e1 ++ e2)%list. now rewrite H2, add_events_app.
  - now exists e1.
Qed.

Lemma extends_try_catch {A} (body : M A) (handler : value -> M A) :
  extends body -> (forall e, extends (handler e)) -> extends (try_catch body handler).
Proof.
  intros Hm Hk st. unfold try_catch. destruct (Hm st) as [e1 H1].
  destruct (body st) as [[a|x] st1]; simpl in H1; subst st1.
  - now exists e1.
  - destruct (Hk x (add_events e1 st)) as [e2 H2].
    exists (e1 ++ e2)%list. now rewrite H2, add_events_app.
Qed.

Lemma extends_read_property (obj : value) (p : property) :
  extends (read_property obj p).
Proof.
  unfold read_property. destruct (get_property obj p);
    [apply extends_ret | apply extends_throw].
Qed.

Ltac extends_step :=
  first
    [ apply extends_ret | apply extends_throw | apply extends_read
    | apply extends_emit | apply extends_pure | apply extends_read_property
    | apply extends_bind; [|intros ?] | apply extends_try_catch; [|intros ?]
    | match goal with
      | |- extends (if ?b then _ else _) => destruct b
      | |- extends (match ?v with _ => _ end) => destruct v
      end ].

Ltac extends_auto := repeat extends_step.


Lemma extends_errorSubscriberFunctionsFilter (c : value) (i : nat) :
  extends (errorSubscriberFunctionsFilter c i).
Proof.
  unfold errorSubscriberFunctionsFilter, console. extends_auto.
Qed.

Lemma extends_array_filter (elems : list value) (i : nat) :
  extends (array_filter errorSubscriberFunctionsFilter elems i).
Proof.
  revert i. induction elems as [|x rest IH]; intros i; simpl.
  - apply extends_ret.
  - apply extends_bind; [apply extends_errorSubscriberFunctionsFilter|].
    intros keep. apply extends_bind; [apply IH|]. intros kept. apply extends_ret.
Qed.


Section EffectsOfCalls.

Variable behaviour : func -> value -> list value -> completion value.







End EffectsOfCalls.

(** ** [buildSubscriberList] *)

Lemma add_events_inv (events : list event) (st : State) :
  add_events events st = st -> events = [].
Proof.
  intros H. apply (f_equal trace) in H. simpl in H.
  rewrite <- (app_nil_r (trace st)) in H at 2. now apply app_inv_head in H.
Qed.

Lemma isFunction_get_property (obj : value) (p : property) :
  isFunction obj = true -> exists v, get_property obj p = Some v.
Proof.
  destruct obj; try discriminate; simpl; intros _; eauto.
  destruct (own_property props p); eauto.
Qed.

Lemma first_is_error_hd (names : list string) :
  first_is_error names = true <-> hd_error names = Some "error".
Proof.
  destruct names as [|first names]; simpl.
  - split; discriminate.
  - rewrite String.eqb_eq. split; [now intros -> | now inversion 1].
Qed.

Lemma filter_callback_result (c : value) (i : nat) (st : State) :
  fst (errorSubscriberFunctionsFilter c i st) = Normal (passes_filter c).
Proof.
  unfold errorSubscriberFunctionsFilter, passes_filter.
  destruct (isFunction c) eqn:F; simpl.
  - destruct (first_is_error (getArgumentNames c)); simpl; [reflexivity|].
    unfold bind, read, read_property, console, emit, ret.
    destruct (isFunction_get_property c p_name F) as [name ->].
    now destruct (_isLoggingEnabled st).
  - unfold bind, read, console, emit, ret. now destruct (_isLoggingEnabled st).
Qed.

Lemma filter_callback_silent (c : value) (i : nat) (st : State) :
  _isLoggingEnabled st = false -> snd (errorSubscriberFunctionsFilter c i st) = st.
Proof.
  intros L. unfold errorSubscriberFunctionsFilter.
  destruct (isFunction c); simpl.
  - destruct (first_is_error (getArgumentNames c)); simpl; [reflexivity|].
    unfold bind, read, ret. now rewrite L.
  - unfold bind, read, ret. now rewrite L.
Qed.

Lemma array_filter_result (elems : list value) (i : nat) (st : State) :
  fst (array_filter errorSubscriberFunctionsFilter elems i st)
  = Normal (filter passes_filter elems).
Proof.
  revert i st. induction elems as [|x rest IH]; intros i st; simpl; [reflexivity|].
  unfold bind. pose proof (filter_callback_result x i st) as Hx.
  destruct (errorSubscriberFunctionsFilter x i st) as [[keep|e] st1];
    simpl in Hx; [|discriminate].
  inversion Hx; subst keep. specialize (IH (S i) st1).
  destruct (array_filter errorSubscriberFunctionsFilter rest (S i) st1)
    as [[kept|e] st2]; simpl in IH; [|discriminate].
  inversion IH; subst kept. now destruct (passes_filter x).
Qed.

Lemma array_filter_silent (elems : list value) (i : nat) (st : State) :
  _isLoggingEnabled st = false ->
  snd (array_filter errorSubscriberFunctionsFilter elems i st) = st.
Proof.
  revert i. induction elems as [|x rest IH]; intros i L; simpl; [reflexivity|].
  unfold bind. pose proof (filter_callback_silent x i st L) as Hx.
  destruct (errorSubscriberFunctionsFilter x i st) as [[keep|e] st1];
    simpl in Hx; subst st1; [|reflexivity].
  specialize (IH (S i) L).
  now destruct (array_filter errorSubscriberFunctionsFilter rest (S i) st)
    as [[kept|e] st2].
Qed.

Lemma filter_Subsequence {A : Type} (keep : A -> bool) (l : list A) :
  Subsequence (filter keep l) l.
Proof.
  induction l as [|x l IH]; simpl; [constructor|].
  destruct (keep x); now constructor.
Qed.

(** C6, as the code has it: for every list of candidates,
    [buildSubscriberList] returns the candidates that pass the test of the
    code, in their order and as they are: those for which [isFunction]
    answers true and for which [getArgumentNames] finds error as the first
    name in the text of the candidate.  The configuration is left as it was;
    without logging nothing is written.  Called without an argument it
    returns the empty sequence. *)
Theorem buildSubscriberList_keeps_what_passes
    (candidates : list value) (st : State) :
  exists events,
    buildSubscriberList (VArray candidates) st
    = (Normal (filter passes_filter candidates), add_events events st)
    /\ (_isLoggingEnabled st = false -> events = [])
    /\ Subsequence (filter passes_filter candidates) candidates
    /\ (forall c, In c (filter passes_filter candidates)
                  <-> In c candidates /\ isFunction c = true
                      /\ hd_error (getArgumentNames c) = Some "error")
    /\ buildSubscriberList VUndefined st = (Normal [], st).
Proof.
  destruct (extends_array_filter candidates 0 st) as [events Hev].
  exists events. repeat split.
  - unfold buildSubscriberList. simpl.
    pose proof (array_filter_result candidates 0 st) as Hr.
    destruct (array_filter errorSubscriberFunctionsFilter candidates 0 st).
    simpl in *. now subst.
  - intros L. rewrite (array_filter_silent candidates 0 st L) in Hev.
    symmetry in Hev. now apply add_events_inv in Hev.
  - apply filter_Subsequence.
  - now apply filter_In in H.
  - apply filter_In in H as [_ H]. unfold passes_filter in H.
    now apply andb_prop in H.
  - apply filter_In in H as [_ H]. unfold passes_filter in H.
    apply andb_prop in H as [_ H]. now apply first_is_error_hd.
  - intros (Hin & Hf & Hn). apply filter_In. split; [exact Hin|].
    unfold passes_filter. rewrite Hf. now apply first_is_error_hd.
Qed.

Lemma passes_filter_callable (c : value) :
  passes_filter c = true -> callable c = true.
Proof.
  unfold passes_filter. intros H. apply andb_prop in H as [Hf Hn].
  destruct c as [| |b|z|s|props|elems|f|n|name message];
    try reflexivity; try discriminate; unfold isFunction in Hf; simpl in Hf.
  - destruct b; discriminate.
  - destruct (negb (z =? 0)%Z); discriminate.
  - destruct (nonempty s); discriminate.
Qed.

(** ** [initErrorCatchNotifier] *)

(** C1, at an input where the code departs from it: the empty mapping, passed
    while logging is off, in any state and with any second argument.  The
    guard of line 136 sees that the value is not an array, but the [return]
    of line 140 sits inside the test of the logging flag, so control reaches
    line 144, [filter] is read from the mapping, which has none, and the
    [TypeError] of the call reaches the caller.  The subscriber list and the
    catching flag are as before. *)
Theorem initErrorCatchNotifier_mapping_without_logging
    (enabled : value) (st : State) :
  initErrorCatchNotifier (VObject []) enabled (VBool false) st
  = (Throw (TypeError "errorSubscriberFunctions.filter is not a function"),
     {| _isEnabled := _isEnabled st; _isLoggingEnabled := false;
        _errorSubscribers := _errorSubscribers st; trace := trace st |}).
Proof.
  reflexivity.
Qed.




(** ** Configuration *)

Lemma enableErrorCatching_without_subscribers (st : State) :
  _errorSubscribers st = [] ->
  enableErrorCatching st
  = (Normal tt,
     {| _isEnabled := false; _isLoggingEnabled := _isLoggingEnabled st;
        _errorSubscribers := [];
        trace := trace st
                 ++ (if _isLoggingEnabled st
                     then [Console console_warn
                             (VString "No valid error subscribers provided. Use init to pass valid error subscribers")]
                     else []) |}).
Proof.
  intros H. unfold enableErrorCatching, bind, read, console, emit, ret,
    assign_isEnabled. rewrite H. cbn [List.length Nat.eqb].
  destruct (_isLoggingEnabled st) eqn:L; cbn; rewrite ?H, ?L, ?app_nil_r;
    reflexivity.
Qed.

Lemma enableErrorCatching_with_subscribers (st : State) :
  _errorSubscribers st <> [] ->
  enableErrorCatching st
  = (Normal tt,
     {| _isEnabled := true; _isLoggingEnabled := _isLoggingEnabled st;
        _errorSubscribers := _errorSubscribers st; trace := trace st |}).
Proof.
  intros H. unfold enableErrorCatching, bind, read, assign_isEnabled.
  destruct (_errorSubscribers st) eqn:E; [now elim H|].
  cbn. now rewrite E.
Qed.







(** ** Failback *)

Lemma errorSubscriberFailback_events (name error data : value) (st : State) :
  errorSubscriberFailback name error data st
  = (Normal tt,
     add_events (failback_events (_isLoggingEnabled st) name error data) st).
Proof.
  unfold errorSubscriberFailback, failback_events, bind, read, console, emit, ret.
  destruct (_isLoggingEnabled st) eqn:L; cbn.
  - destruct (truthy error), (truthy data); cbn; unfold add_events; cbn;
      rewrite ?L, <- ?app_assoc, ?app_nil_r; try reflexivity.
    all: destruct st; cbn in *; now subst.
  - now rewrite add_events_nil.
Qed.

(** C9, as the code has it: the failback made for a name writes nothing
    while logging is disabled.  While logging is enabled it writes the line
    "Error subscriber <name> failed with error" and then the error exactly
    when the error is truthy, and the line
    "Error subscriber <name> succeeded with" and then the data exactly when
    the data is truthy; both pairs can be written in one call. *)
Theorem failback_writes_what_is_truthy behaviour
    (name : string) (this error data : value) (st : State) :
  let lines : list event :=
    if _isLoggingEnabled st then
      ((if truthy error then
          [Console console_error
             (VString ("Error subscriber " ++ name ++ " failed with error"));
           Console console_error error]
        else [])
       ++ (if truthy data then
             [Console console_log
                (VString ("Error subscriber " ++ name ++ " succeeded with"));
              Console console_log data]
           else []))%list
    else [] in
  errorSubscriberFailback (VString name) error data st
  = (Normal tt, add_events lines st)
  /\ call_value behaviour "failback" (makeErrorSubscriberFailback (VString name))
                this [error; data] st
     = (Normal VUndefined,
        add_events
          (Call (makeErrorSubscriberFailback (VString name)) this [error; data]
           :: lines) st).
Proof.
  cbv zeta. split.
  - apply errorSubscriberFailback_events.
  - unfold call_value, makeErrorSubscriberFailback, bind, emit, ret.
    cbn [argument nth].
    rewrite errorSubscriberFailback_events. cbn [_isLoggingEnabled].
    change (mkState (_isEnabled st) (_isLoggingEnabled st) (_errorSubscribers st)
              (trace st ++ [Call (VFailback (VString name)) this [error; data]]))
      with (add_events [Call (VFailback (VString name)) this [error; data]] st).
    now rewrite add_events_app.
Qed.

(** ** The notifier *)

(** C10: with an empty subscriber list, [notifyErrorSubscribers] returns
    without calling anything, writing anything, throwing or changing the
    state, whatever the error and the options. *)
Theorem notifyErrorSubscribers_without_subscribers behaviour
    (error options : value) (st : State) :
  _errorSubscribers st = [] ->
  notifyErrorSubscribers behaviour error options st = (Normal tt, st).
Proof.
  intros H. unfold notifyErrorSubscribers, bind, read. now rewrite H.
Qed.

(** ** The wrapper *)

(** C4: while catching is disabled, the wrapped function does what the
    target does when called with the same receiver and arguments: it returns
    what the target returns, an error that the target throws reaches the
    caller as it is, and nothing else happens. *)
Theorem wrap_passes_through_when_disabled behaviour
    (f : func) (options this : value) (args : list value) (st : State) :
  _isEnabled st = false ->
  (forall text,
     wrap behaviour (VFunction f) options this args st
     = call_value behaviour text (VFunction f) this args st)
  /\ wrap behaviour (VFunction f) options this args st
     = (behaviour f this args, add_events [Call (VFunction f) this args] st).
Proof.
  intros H. unfold wrap, wrappedFunction, bind, read. rewrite H.
  split; reflexivity.
Qed.

(** ** One notify cycle *)

Section Cycle.

Local Open Scope list_scope.

Variable behaviour : func -> value -> list value -> completion value.

Local Abbreviation outcome := (subscriber_outcome behaviour).
Local Abbreviation throws := (subscriber_throws behaviour).
Local Abbreviation turn := (turn_events behaviour).
Local Abbreviation goes_on := (turn_goes_on behaviour).
Local Abbreviation cycle := (cycle_events behaviour).

Lemma callable_name (s : value) :
  callable s = true -> get_property s p_name = Some (name_of s).
Proof.
  destruct s; try discriminate; reflexivity.
Qed.

Ltac same_state :=
  unfold add_events; cbn; rewrite <- ?app_assoc, ?app_nil_r;
  repeat match goal with
         | L : _isLoggingEnabled _ = _ |- _ => rewrite L
         end;
  reflexivity.

Lemma notify_one_turn (s error options : value) (st : State) :
  callable s = true ->
  notify_one behaviour s error options st
  = (Normal (goes_on (_isLoggingEnabled st) s error options),
     add_events (turn (_isLoggingEnabled st) s error options) st).
Proof.
  destruct s as [| | | | | | |f|name|]; try discriminate; intros _.
  - unfold notify_one, try_catch, bind, read_property, call_value, bind, emit,
      read, console, emit, ret, turn_events, turn_goes_on, subscriber_outcome,
      own_events, skipping_lines, subscriber_call.
    cbn.
    destruct (behaviour f VUndefined _) as [v|x]; cbn.
    + same_state.
    + destruct (_isLoggingEnabled st) eqn:L; cbn; same_state.
  - unfold notify_one, try_catch, bind, read_property, call_value, bind, emit, ret.
    cbn [get_property function_property argument nth].
    rewrite errorSubscriberFailback_events.
    unfold turn_events, turn_goes_on, subscriber_outcome, own_events,
      subscriber_call.
    cbn. same_state.
Qed.

Lemma notify_from_cycle (subs : list value) (error options : value) (st : State) :
  Forall (fun s => callable s = true) subs ->
  notify_from behaviour subs error options st
  = (Normal tt, add_events (cycle (_isLoggingEnabled st) subs error options) st).
Proof.
  intros H. revert st. induction H as [|s later Hs _ IH]; intros st; cbn.
  - now rewrite add_events_nil.
  - unfold bind. rewrite (notify_one_turn s error options st Hs).
    destruct (goes_on (_isLoggingEnabled st) s error options).
    + rewrite IH. cbn [add_events _isLoggingEnabled]. now rewrite add_events_app.
    + unfold ret. now rewrite app_nil_r.
Qed.

Lemma calls_of_app (a b : list event) :
  calls_of (a ++ b) = calls_of a ++ calls_of b.
Proof. apply filter_app. Qed.

Lemma calls_of_failback_events (logging : bool) (name error data : value) :
  calls_of (failback_events logging name error data) = [].
Proof.
  unfold failback_events.
  now destruct logging, (truthy error), (truthy data).
Qed.

Lemma calls_of_turn (logging : bool) (s error options : value) :
  calls_of (turn logging s error options) = [subscriber_call s error options].
Proof.
  unfold turn_events. cbn. f_equal. rewrite calls_of_app.
  replace (calls_of (own_events logging s error options)) with (@nil event)
    by (destruct s; cbn; now rewrite ?calls_of_failback_events).
  now destruct (outcome s error options), logging.
Qed.

Lemma outcome_throw_own_events (logging : bool) (s error options x : value) :
  outcome s error options = Throw x -> own_events logging s error options = [].
Proof.
  destruct s; try reflexivity. discriminate.
Qed.

Lemma not_throws_goes_on (logging : bool) (s error options : value) :
  ~ throws s error options -> goes_on logging s error options = true.
Proof.
  unfold subscriber_throws, turn_goes_on. intros H.
  destruct (outcome s error options) as [v|x]; [reflexivity|].
  elim H. now exists x.
Qed.

Lemma logging_goes_on (s error options : value) :
  goes_on true s error options = true.
Proof.
  unfold turn_goes_on. now destruct (outcome s error options).
Qed.

(** With logging, every subscriber is called, in order. *)
Lemma cycle_calls_with_logging (subs : list value) (error options : value) :
  calls_of (cycle true subs error options)
  = map (fun s => subscriber_call s error options) subs.
Proof.
  induction subs as [|s later IH]; [reflexivity|].
  cbn [cycle_events map].
  now rewrite logging_goes_on, calls_of_app, calls_of_turn, IH.
Qed.

(** The calls of a cycle go to the subscribers at the head of the list. *)
Lemma cycle_calls_prefix (logging : bool) (subs : list value)
    (error options : value) :
  exists n, calls_of (cycle logging subs error options)
            = map (fun s => subscriber_call s error options) (firstn n subs).
Proof.
  induction subs as [|s later [n IH]]; [now exists 0|].
  cbn [cycle_events]. rewrite calls_of_app, calls_of_turn.
  destruct (goes_on logging s error options).
  - exists (S n). cbn. now rewrite IH.
  - now exists 1.
Qed.

(** Without logging, the cycle ends with the call of the first subscriber
    that throws, and it writes nothing. *)
Lemma cycle_stops_without_logging (pre post : list value) (s error options : value) :
  (forall p, In p pre -> ~ throws p error options) ->
  throws s error options ->
  cycle false (pre ++ s :: post) error options
  = map (fun s => subscriber_call s error options) (pre ++ [s]).
Proof.
  intros Hpre [x Hs]. induction pre as [|p pre IH]; cbn.
  - unfold turn_events, turn_goes_on. rewrite Hs.
    rewrite (outcome_throw_own_events false s error options x Hs). reflexivity.
  - rewrite not_throws_goes_on by (apply Hpre; now left).
    rewrite IH by (intros q Hq; apply Hpre; now right).
    unfold turn_events. cbn. f_equal.
    assert (own_events false p error options = []) as -> by now destruct p.
    destruct (outcome p error options) eqn:E; reflexivity.
Qed.

(** A subscriber is called when logging is enabled or when no subscriber
    before it throws. *)
Lemma cycle_calls_subscriber (logging : bool) (pre post : list value)
    (s error options : value) :
  logging = true \/ (forall p, In p pre -> ~ throws p error options) ->
  In (subscriber_call s error options)
     (cycle logging (pre ++ s :: post) error options).
Proof.
  intros H. induction pre as [|p pre IH]; cbn [app cycle_events].
  - apply in_or_app. left. now left.
  - apply in_or_app. right.
    assert (goes_on logging p error options = true) as ->.
    { destruct H as [-> | H]; [apply logging_goes_on|].
      apply not_throws_goes_on, H. now left. }
    apply IH.
    destruct H as [H | H]; [now left | right].
    intros q Hq. apply H. now right.
Qed.

(** With logging, the call of a subscriber that throws is followed by the
    two lines about it. *)
Lemma cycle_writes_skipping_lines (subs : list value) (s error options x : value) :
  In s subs ->
  outcome s error options = Throw x ->
  exists before after,
    cycle true subs error options
    = before ++ subscriber_call s error options :: skipping_lines s x ++ after.
Proof.
  intros Hin Hs. induction subs as [|a later IH]; [contradiction|].
  cbn [cycle_events]. rewrite logging_goes_on.
  destruct Hin as [-> | Hin].
  - exists [], (cycle true later error options).
    unfold turn_events. rewrite Hs.
    rewrite (outcome_throw_own_events true s error options x Hs). reflexivity.
  - destruct (IH Hin) as (before & after & ->).
    exists (turn true a error options ++ before), after.
    now rewrite <- app_assoc.
Qed.

End Cycle.

(** ** Notification and wrapping *)

Lemma notifyErrorSubscribers_cycle behaviour (error options : value) (st : State) :
  Forall (fun s => callable s = true) (_errorSubscribers st) ->
  notifyErrorSubscribers behaviour error options st
  = (Normal tt,
     add_events
       (cycle_events behaviour (_isLoggingEnabled st) (_errorSubscribers st)
                     error options) st).
Proof.
  intros H. unfold notifyErrorSubscribers, bind, read.
  now rewrite notify_from_cycle.
Qed.

(** C2, as the code has it, for a stored list of callable subscribers (as
    every list that [initErrorCatchNotifier] stores for an array is): a
    subscriber that
    throws never makes [notifyErrorSubscribers] throw.  While logging is
    disabled, the cycle ends
    with the call of the first subscriber that throws: no later subscriber is
    called and nothing is written.  While logging is enabled, every
    subscriber is called, in order, and the call of each subscriber that
    throws is followed by the line "Skipping error subscriber: <name>" and
    by the error it threw. *)
Theorem notifyErrorSubscribers_isolates_subscribers behaviour
    (error options : value) (st : State) :
  Forall (fun s => callable s = true) (_errorSubscribers st) ->
  exists events,
    notifyErrorSubscribers behaviour error options st
    = (Normal tt, add_events events st)
    /\ (_isLoggingEnabled st = false ->
        forall pre s post,
          _errorSubscribers st = (pre ++ s :: post)%list ->
          (forall p, In p pre -> ~ subscriber_throws behaviour p error options) ->
          subscriber_throws behaviour s error options ->
          events = map (fun s => subscriber_call s error options) (pre ++ [s])%list)
    /\ (_isLoggingEnabled st = true ->
        calls_of events
        = map (fun s => subscriber_call s error options) (_errorSubscribers st)
        /\ forall s catchError,
             In s (_errorSubscribers st) ->
             subscriber_outcome behaviour s error options = Throw catchError ->
             exists before after,
               events = (before
                         ++ subscriber_call s error options
                            :: skipping_lines s catchError ++ after)%list).
Proof.
  intros H. eexists. split; [now apply notifyErrorSubscribers_cycle|]. split.
  - intros -> pre s post -> Hpre Hs. now apply cycle_stops_without_logging.
  - intros ->. split; [apply cycle_calls_with_logging|].
    intros s x Hin Hs. now apply cycle_writes_skipping_lines.
Qed.

(** C3: while catching is enabled, when the target throws an error, the
    wrapped function returns [undefined] and the error goes no further.  Every
    stored subscriber that the cycle reaches (all of them while logging is
    enabled, and otherwise those with no throwing subscriber before them) is
    called with the error, the options given to [wrap], and a failback made
    for the name of that subscriber.  No other call is made. *)
Theorem wrap_swallows_and_notifies behaviour
    (f : func) (options this : value) (args : list value) (st : State)
    (E : value) :
  _isEnabled st = true ->
  Forall (fun s => callable s = true) (_errorSubscribers st) ->
  behaviour f this args = Throw E ->
  exists events,
    wrap behaviour (VFunction f) options this args st
    = (Normal VUndefined, add_events (Call (VFunction f) this args :: events) st)
    /\ (forall pre s post,
          _errorSubscribers st = (pre ++ s :: post)%list ->
          _isLoggingEnabled st = true
          \/ (forall p, In p pre -> ~ subscriber_throws behaviour p E options) ->
          In (Call s VUndefined
                   [E; options; makeErrorSubscriberFailback (name_of s)])
             events)
    /\ (exists n,
          calls_of events
          = map (fun s => Call s VUndefined
                               [E; options; makeErrorSubscriberFailback (name_of s)])
                (firstn n (_errorSubscribers st))).
Proof.
  intros He Hc Hf.
  exists (cycle_events behaviour (_isLoggingEnabled st) (_errorSubscribers st)
                       E options).
  repeat split.
  - unfold wrap, wrappedFunction, bind, read. rewrite He. cbn [negb].
    unfold try_catch, apply_method, call_value, bind, emit. cbn [callable].
    rewrite Hf. unfold ret.
    change (mkState (_isEnabled st) (_isLoggingEnabled st) (_errorSubscribers st)
              (trace st ++ [Call (VFunction f) this args]))
      with (add_events [Call (VFunction f) this args] st).
    rewrite notifyErrorSubscribers_cycle by exact Hc.
    cbn [add_events _isLoggingEnabled _errorSubscribers].
    now rewrite add_events_app.
  - intros pre s post -> H. now apply cycle_calls_subscriber.
  - apply cycle_calls_prefix.
Qed.

(** * The test suite *)

Example test_getArgumentNames :
  getArgumentNames (VFunction functionFixture) = ["argument1"; "argument2"].
Proof. reflexivity. Qed.

Example test_isFunction :
  isFunction (VFunction functionFixture) = true
  /\ isFunction (VObject []) = false
  /\ isFunction (VArray []) = false.
Proof. repeat split. Qed.

Example test_buildSubscriberList_filters_signature :
  fst (buildSubscriberList
         (VArray [VFunction errorSubscriber; VFunction badErrorSubscriber])
         initial_state)
  = Normal [VFunction errorSubscriber].
Proof. reflexivity. Qed.

Example test_buildSubscriberList_warns_signature :
  trace (snd (buildSubscriberList
                (VArray [VFunction errorSubscriber; VFunction badErrorSubscriber])
                (snd (enableLogging initial_state))))
  = [Console console_warn (VString "Skipping error subscriber: badErrorSubscriber");
     Console console_warn
       (VString "First argument of subscriber function must be named error")].
Proof. reflexivity. Qed.

Example test_buildSubscriberList_warns_not_a_function :
  buildSubscriberList (VArray [VFunction errorSubscriber; VObject []])
                      (snd (enableLogging initial_state))
  = (Normal [VFunction errorSubscriber],
     {| _isEnabled := false; _isLoggingEnabled := true; _errorSubscribers := [];
        trace :=
          [Console console_warn
             (VString "Skipping error subscriber: [object Object] at errorSubscribers index 1");
           Console console_warn (VString "Subscriber is not a function")] |}).
Proof. reflexivity. Qed.

Example test_initErrorCatchNotifier_sets_flags :
  initErrorCatchNotifier (VArray [VFunction errorSubscriber]) (VBool true)
                         (VBool true) initial_state
  = (Normal tt,
     {| _isEnabled := true; _isLoggingEnabled := true;
        _errorSubscribers := [VFunction errorSubscriber]; trace := [] |}).
Proof. reflexivity. Qed.

Example test_initErrorCatchNotifier_reports_not_an_array :
  trace (snd (initErrorCatchNotifier
                (VObject [])
                (VBool true) (VBool true) initial_state))
  = [Console console_error
       (VString "errorSubscriberFunctions must be an array of functions")].
Proof. reflexivity. Qed.

Example test_enableErrorCatching_without_subscribers :
  _isEnabled (snd (enableErrorCatching
                     (snd (initErrorCatchNotifier VUndefined (VBool false)
                             (VBool false) initial_state))))
  = false.
Proof. reflexivity. Qed.

Example test_failback :
  trace (snd (errorSubscriberFailback (VString "errorSubscriber10")
                (VString "myError") VUndefined (snd (enableLogging initial_state))))
  = [Console console_error
       (VString "Error subscriber errorSubscriber10 failed with error");
     Console console_error (VString "myError")]
  /\ trace (snd (errorSubscriberFailback (VString "errorSubscriber10")
                   VUndefined (VString "mySuccess")
                   (snd (enableLogging initial_state))))
     = [Console console_log
          (VString "Error subscriber errorSubscriber10 succeeded with");
        Console console_log (VString "mySuccess")].
Proof. split; reflexivity. Qed.

Example test_wrap :
  let st := snd (initErrorCatchNotifier (VArray [VFunction errorSubscriber])
                   (VBool true) (VBool false) initial_state) in
  wrap fixture_behaviour (VFunction errorFunction) VUndefined VUndefined [] st
  = (Normal VUndefined,
     add_events
       [Call (VFunction errorFunction) VUndefined [];
        Call (VFunction errorSubscriber) VUndefined
             [testError; VUndefined; VFailback (VString "errorSubscriber")]]
       st).
Proof. reflexivity. Qed.

(** * The properties at the fixtures *)

(** C2 fails as stated: with logging enabled, the subscriber that follows a
    throwing subscriber is called all the same. *)
Lemma notifyErrorSubscribers_goes_on_with_logging :
  subscriber_throws fixture_behaviour (VFunction failingSubscriber) testError VUndefined
  /\ In (subscriber_call (VFunction errorSubscriber) testError VUndefined)
        (trace (snd (notifyErrorSubscribers fixture_behaviour testError VUndefined
                       (state_with_failing_subscriber true)))).
Proof.
  split.
  - exists (VString "boom"). reflexivity.
  - vm_compute. right. right. right. now left.
Qed.

Lemma notifyErrorSubscribers_isolates_subscribers_witness :
  exists events,
    notifyErrorSubscribers fixture_behaviour testError VUndefined
      (state_with_failing_subscriber false)
    = (Normal tt, add_events events (state_with_failing_subscriber false))
    /\ events = [subscriber_call (VFunction failingSubscriber) testError VUndefined].
Proof.
  destruct (notifyErrorSubscribers_isolates_subscribers fixture_behaviour
              testError VUndefined (state_with_failing_subscriber false))
    as (events & Heq & Hsilent & _).
  - repeat constructor.
  - exists events. split; [exact Heq|].
    apply (Hsilent eq_refl [] (VFunction failingSubscriber)
             [VFunction errorSubscriber] eq_refl).
    + intros p [].
    + exists (VString "boom"). reflexivity.
Defined.

Lemma wrap_swallows_and_notifies_witness :
  exists events,
    wrap fixture_behaviour (VFunction errorFunction) VNull VUndefined []
      {| _isEnabled := true; _isLoggingEnabled := false;
         _errorSubscribers := [VFunction errorSubscriber]; trace := [] |}
    = (Normal VUndefined,
       {| _isEnabled := true; _isLoggingEnabled := false;
          _errorSubscribers := [VFunction errorSubscriber];
          trace := Call (VFunction errorFunction) VUndefined [] :: events |})
    /\ In (Call (VFunction errorSubscriber) VUndefined
                [testError; VNull; VFailback (VString "errorSubscriber")])
          events.
Proof.
  destruct (wrap_swallows_and_notifies fixture_behaviour errorFunction VNull
              VUndefined []
              {| _isEnabled := true; _isLoggingEnabled := false;
                 _errorSubscribers := [VFunction errorSubscriber]; trace := [] |}
              testError eq_refl)
    as (events & Heq & Hcall & _).
  - repeat constructor.
  - reflexivity.
  - exists events. split; [exact Heq|].
    apply (Hcall [] (VFunction errorSubscriber) [] eq_refl).
    right. intros p [].
Defined.

Lemma wrap_passes_through_when_disabled_witness :
  wrap fixture_behaviour (VFunction errorFunction) VNull VUndefined [VNumber 1 eq_refl]
       initial_state
  = (Throw testError,
     add_events [Call (VFunction errorFunction) VUndefined [VNumber 1 eq_refl]]
                initial_state).
Proof.
  exact (proj2 (wrap_passes_through_when_disabled fixture_behaviour errorFunction
                  VNull VUndefined [VNumber 1 eq_refl] initial_state eq_refl)).
Defined.


Lemma notifyErrorSubscribers_without_subscribers_witness :
  notifyErrorSubscribers fixture_behaviour testError VUndefined initial_state
  = (Normal tt, initial_state).
Proof.
  exact (notifyErrorSubscribers_without_subscribers fixture_behaviour testError
           VUndefined initial_state eq_refl).
Defined.

(** C6 fails as stated: an arrow function is callable and its first
    declared parameter is named error, yet the filter drops it, because its
    text has no function keyword. *)
Lemma buildSubscriberList_drops_arrow_function :
  callable (VFunction arrowSubscriber) = true
  /\ first_declared_parameter (VFunction arrowSubscriber) = Some "error"
  /\ buildSubscriberList (VArray [VFunction arrowSubscriber]) initial_state
     = (Normal [], initial_state).
Proof.
  repeat split.
Qed.

Lemma buildSubscriberList_keeps_what_passes_witness :
  buildSubscriberList
    (VArray [VFunction errorSubscriber; VFunction badErrorSubscriber])
    initial_state
  = (Normal [VFunction errorSubscriber], initial_state).
Proof.
  destruct (buildSubscriberList_keeps_what_passes
              [VFunction errorSubscriber; VFunction badErrorSubscriber]
              initial_state)
    as (events & Heq & Hsilent & _).
  rewrite Heq, (Hsilent eq_refl). reflexivity.
Defined.

(** C7, at an input where the code departs from it and from its own
    comment (true if obj is a function; false if not): the plain mapping
    [{ call: true, apply: true }] is not callable, and [isFunction], which
    only tests that [constructor], [call] and [apply] are truthy, answers
    true. *)
Theorem isFunction_accepts_mapping_with_call_and_apply :
  callable duck = false /\ isFunction duck = true.
Proof.
  split; reflexivity.
Qed.

Lemma getArgumentNames_degrades_to_empty_witness :
  getArgumentNames (VFunction arrowSubscriber) = []
  /\ getArgumentNames (VFunction badErrorSubscriber) = []
  /\ getArgumentNames (native "push") = [].
Proof.
  split; [|split].
  - apply (proj1 (getArgumentNames_degrades_to_empty (VFunction arrowSubscriber))).
    intros text H Hp. inversion H; subst text.
    now apply match_function_args_complete in Hp.
  - apply (proj1 (proj2 (getArgumentNames_degrades_to_empty
                           (VFunction badErrorSubscriber)))
             " "%char "badErrorSubscriber" "" " {}"); reflexivity.
  - apply (proj1 (proj2 (getArgumentNames_degrades_to_empty (native "push")))
             " "%char "push" "" " { [native code] }"); reflexivity.
Defined.

(** C8 fails as stated: the pattern is searched for in the whole text, so
    for an arrow function whose body holds a function expression the answer
    is not the empty sequence but the parameter names of the inner
    function. *)
Lemma getArgumentNames_reads_inside_an_arrow_function :
  callable (VFunction arrowReturningFunction) = true
  /\ declared_with_keyword (fn_source arrowReturningFunction) = false
  /\ fn_params arrowReturningFunction = ["a"]
  /\ getArgumentNames (VFunction arrowReturningFunction) = ["error"; "y"].
Proof.
  repeat split.
Qed.

(** C9 fails as stated: with logging enabled, data that is present but not
    truthy, here the number 0, is not written. *)
Lemma failback_silent_on_zero :
  present (VNumber 0 eq_refl) = true
  /\ errorSubscriberFailback (VString "sub") VUndefined (VNumber 0 eq_refl)
       {| _isEnabled := false; _isLoggingEnabled := true;
          _errorSubscribers := []; trace := [] |}
     = (Normal tt,
        {| _isEnabled := false; _isLoggingEnabled := true;
           _errorSubscribers := []; trace := [] |}).
Proof.
  split; reflexivity.
Qed.

(** * More about the code *)

(** ** Reading parameter names *)

Lemma string_forall_app (p : ascii -> bool) (a b : string) :
  string_forall p (a ++ b) = string_forall p a && string_forall p b.
Proof.
  induction a as [|c a IH]; simpl; [reflexivity|].
  now rewrite IH, andb_assoc.
Qed.

Lemma string_forall_impl (p q : ascii -> bool) (s : string) :
  (forall c, p c = true -> q c = true) ->
  string_forall p s = true -> string_forall q s = true.
Proof.
  intros Hpq. induction s as [|c s IH]; simpl; [reflexivity|].
  intros H. apply andb_prop in H as [Hc Hs].
  now rewrite (Hpq c Hc), (IH Hs).
Qed.

Lemma until_close_paren_first (params rest : string) :
  string_forall (fun c => negb (Ascii.eqb c ")")) params = true ->
  until_close_paren (params ++ ")" ++ rest) = Some params.
Proof.
  induction params as [|c params IH]; intros H; simpl in *; [reflexivity|].
  apply andb_prop in H as [Hc Hs]. apply negb_true_iff in Hc.
  now rewrite Hc, (IH Hs).
Qed.

(** The match on the text of a function is the text between the first
    opening parenthesis and the first closing parenthesis after it. *)
Lemma match_function_text (space : ascii) (heading params rest : string) :
  is_white_space space = true ->
  string_forall heading_character heading = true ->
  string_forall (fun c => negb (Ascii.eqb c ")")) params = true ->
  match_function_args (function_text space heading params rest) = Some params.
Proof.
  intros Hs Hh Hp. unfold function_text.
  apply match_function_args_at_head; [exact Hs|].
  apply lazy_any_then_first_paren; [exact Hh|].
  now apply until_close_paren_first.
Qed.

Lemma getArgumentNames_function_text (v : value) (space : ascii)
    (heading params rest : string) :
  method_toString v = Some (function_text space heading params rest) ->
  is_white_space space = true ->
  string_forall heading_character heading = true ->
  string_forall (fun c => negb (Ascii.eqb c ")")) params = true ->
  getArgumentNames v = argument_names_of_args params.
Proof.
  intros Hv Hs Hh Hp. unfold getArgumentNames.
  now rewrite Hv, (match_function_text space heading params rest Hs Hh Hp).
Qed.

(** X2: only the first parenthesised group is read.  Take two functions
    whose texts begin with the keyword and a white space and reach their
    first opening parenthesis without a line break.  When the texts agree
    between that parenthesis and the first closing parenthesis after it,
    the functions have the same argument names, whatever their names and
    whatever follows the closing parenthesis. *)
Theorem getArgumentNames_reads_first_group
    (v1 v2 : value) (space1 space2 : ascii)
    (heading1 heading2 params rest1 rest2 : string) :
  method_toString v1 = Some (function_text space1 heading1 params rest1) ->
  method_toString v2 = Some (function_text space2 heading2 params rest2) ->
  is_white_space space1 = true -> is_white_space space2 = true ->
  string_forall heading_character heading1 = true ->
  string_forall heading_character heading2 = true ->
  string_forall (fun c => negb (Ascii.eqb c ")")) params = true ->
  getArgumentNames v1 = getArgumentNames v2.
Proof.
  intros H1 H2 Hs1 Hs2 Hh1 Hh2 Hp.
  rewrite (getArgumentNames_function_text v1 _ _ _ _ H1 Hs1 Hh1 Hp).
  now rewrite (getArgumentNames_function_text v2 _ _ _ _ H2 Hs2 Hh2 Hp).
Qed.

Lemma split_comma_cons (piece rest : string) :
  string_forall (fun c => negb (Ascii.eqb c ",")) piece = true ->
  split_comma (piece ++ "," ++ rest) = piece :: split_comma rest.
Proof.
  induction piece as [|c piece IH]; intros H; simpl in *.
  - reflexivity.
  - apply andb_prop in H as [Hc Hp]. apply negb_true_iff in Hc.
    now rewrite Hc, (IH Hp).
Qed.

Lemma split_comma_single (piece : string) :
  string_forall (fun c => negb (Ascii.eqb c ",")) piece = true ->
  split_comma piece = [piece].
Proof.
  induction piece as [|c piece IH]; intros H; simpl in *; [reflexivity|].
  apply andb_prop in H as [Hc Hp]. apply negb_true_iff in Hc.
  now rewrite Hc, (IH Hp).
Qed.

(** Splitting undoes joining, for pieces without commas. *)
Lemma split_comma_concat (piece : string) (pieces : list string) :
  Forall (fun s => string_forall (fun c => negb (Ascii.eqb c ",")) s = true)
         (piece :: pieces) ->
  split_comma (String.concat "," (piece :: pieces)) = piece :: pieces.
Proof.
  revert piece. induction pieces as [|next pieces IH]; intros piece H.
  - apply split_comma_single. now inversion H.
  - inversion H as [|? ? Hp Hrest]; subst.
    change (String.concat "," (piece :: next :: pieces))
      with (piece ++ "," ++ String.concat "," (next :: pieces)).
    now rewrite (split_comma_cons _ _ Hp), (IH next Hrest).
Qed.

Lemma greedy_any_then_close_none (s : string) :
  string_forall (fun c => negb (Ascii.eqb c "*")) s = true ->
  greedy_any_then_close s = None.
Proof.
  induction s as [|c s IH]; intros H; simpl in *; [reflexivity|].
  apply andb_prop in H as [Hc Hs]. apply negb_true_iff in Hc.
  rewrite (IH Hs). rewrite Ascii.eqb_sym in Hc. rewrite Hc.
  now destruct (is_line_terminator c).
Qed.

(** The greedy star ends at the last closer: after a comment body on one
    line and its closer, text without a star is what remains. *)
Lemma greedy_any_then_close_last (body after : string) :
  string_forall (fun c => negb (is_line_terminator c)) body = true ->
  string_forall (fun c => negb (Ascii.eqb c "*")) after = true ->
  greedy_any_then_close (body ++ "*/" ++ after) = Some after.
Proof.
  intros Hb Ha. induction body as [|c body IH]; simpl in *.
  - now rewrite (greedy_any_then_close_none _ Ha).
  - apply andb_prop in Hb as [Hc Hb]. apply negb_true_iff in Hc.
    now rewrite Hc, (IH Hb).
Qed.

Lemma strip_comment_skip (before s : string) :
  string_forall (fun c => negb (Ascii.eqb c "/")) before = true ->
  strip_comment (before ++ s) = before ++ strip_comment s.
Proof.
  induction before as [|c before IH]; intros H; simpl in *; [reflexivity|].
  apply andb_prop in H as [Hc Hb]. apply negb_true_iff in Hc.
  rewrite Ascii.eqb_sym in Hc. now rewrite Hc, (IH Hb).
Qed.

Lemma strip_comment_none (s : string) :
  string_forall (fun c => negb (Ascii.eqb c "/")) s = true ->
  strip_comment s = s.
Proof.
  induction s as [|c s IH]; intros H; simpl in *; [reflexivity|].
  apply andb_prop in H as [Hc Hs]. apply negb_true_iff in Hc.
  rewrite Ascii.eqb_sym in Hc. now rewrite Hc, (IH Hs).
Qed.

Lemma strip_comment_block (body after : string) :
  string_forall (fun c => negb (is_line_terminator c)) body = true ->
  string_forall (fun c => negb (Ascii.eqb c "*")) after = true ->
  strip_comment ("/*" ++ body ++ "*/" ++ after) = after.
Proof.
  intros Hb Ha.
  change ("/*" ++ body ++ "*/" ++ after)
    with (String "/" (String "*" (body ++ "*/" ++ after))).
  cbn [strip_comment strip_prefix]. rewrite !Ascii.eqb_refl.
  now rewrite (greedy_any_then_close_last body after Hb Ha).
Qed.

Lemma trim_start_white_space (lead s : string) :
  string_forall is_white_space lead = true ->
  trim_start (lead ++ s) = trim_start s.
Proof.
  induction lead as [|c lead IH]; intros H; simpl in *; [reflexivity|].
  apply andb_prop in H as [Hc Hl]. now rewrite Hc, (IH Hl).
Qed.

Lemma trim_end_white_space (s : string) :
  string_forall is_white_space s = true -> trim_end s = "".
Proof.
  induction s as [|c s IH]; intros H; simpl in *; [reflexivity|].
  apply andb_prop in H as [Hc Hs]. now rewrite (IH Hs), Hc.
Qed.

Lemma trim_end_name (name tail : string) :
  nonempty name = true ->
  string_forall (fun c => negb (is_white_space c)) name = true ->
  string_forall is_white_space tail = true ->
  trim_end (name ++ tail) = name.
Proof.
  intros Hne Hn Ht. induction name as [|c name IH]; [discriminate|].
  simpl in Hn. apply andb_prop in Hn as [Hc Hn]. apply negb_true_iff in Hc.
  destruct name as [|d name].
  - simpl. now rewrite (trim_end_white_space tail Ht), Hc.
  - specialize (IH eq_refl Hn).
    change (String c (String d name) ++ tail)
      with (String c (String d name ++ tail)).
    cbn [trim_end]. now rewrite IH.
Qed.

Lemma trim_name (lead name tail : string) :
  string_forall is_white_space lead = true ->
  nonempty name = true ->
  string_forall (fun c => negb (is_white_space c)) name = true ->
  string_forall is_white_space tail = true ->
  trim (lead ++ name ++ tail) = name.
Proof.
  intros Hl Hne Hn Ht. unfold trim. rewrite (trim_start_white_space _ _ Hl).
  destruct name as [|c name]; [discriminate|].
  simpl in Hn. apply andb_prop in Hn as [Hc Hn'].
  apply negb_true_iff in Hc.
  change (trim_start (String c name ++ tail)) with
    (if is_white_space c then trim_start (name ++ tail)
     else String c name ++ tail).
  rewrite Hc. apply trim_end_name; [reflexivity | | exact Ht].
  simpl. now rewrite Hc, Hn'.
Qed.

Lemma white_space_not (x : ascii) (s : string) :
  is_white_space x = false ->
  string_forall is_white_space s = true ->
  string_forall (fun c => negb (Ascii.eqb c x)) s = true.
Proof.
  intros Hx. apply string_forall_impl. intros c Hc.
  destruct (Ascii.eqb_spec c x) as [->|]; [congruence | reflexivity].
Qed.

Lemma name_character_spec (c : ascii) :
  name_character c = true ->
  is_white_space c = false /\ Ascii.eqb c "," = false
  /\ Ascii.eqb c ")" = false /\ Ascii.eqb c "/" = false.
Proof.
  unfold name_character. intros H.
  apply andb_prop in H as [H H4]. apply andb_prop in H as [H H3].
  apply andb_prop in H as [H1 H2].
  now rewrite negb_true_iff in H1, H2, H3, H4.
Qed.

Lemma comment_character_spec (c : ascii) :
  comment_character c = true ->
  is_line_terminator c = false /\ Ascii.eqb c "," = false
  /\ Ascii.eqb c ")" = false.
Proof.
  unfold comment_character. intros H.
  apply andb_prop in H as [H H3]. apply andb_prop in H as [H1 H2].
  now rewrite negb_true_iff in H1, H2, H3.
Qed.

Lemma parameter_ok_spec (p : parameter) :
  parameter_ok p = true ->
  string_forall is_white_space (param_lead p) = true
  /\ nonempty (param_name p) = true
  /\ string_forall name_character (param_name p) = true
  /\ string_forall is_white_space (param_gap p) = true
  /\ match param_comment p with
     | Some body => string_forall comment_character body = true
     | None => True
     end
  /\ string_forall is_white_space (param_trail p) = true.
Proof.
  unfold parameter_ok. intros H.
  repeat (apply andb_prop in H as [H ?]).
  repeat split; try assumption.
  now destruct (param_comment p).
Qed.

(** A parameter as it is written holds neither a comma nor a closing
    parenthesis. *)
Lemma parameter_text_without (x : ascii) (p : parameter) :
  is_white_space x = false ->
  Ascii.eqb "/" x = false -> Ascii.eqb "*" x = false ->
  (forall c, name_character c = true -> Ascii.eqb c x = false) ->
  (forall c, comment_character c = true -> Ascii.eqb c x = false) ->
  parameter_ok p = true ->
  string_forall (fun c => negb (Ascii.eqb c x)) (parameter_text p) = true.
Proof.
  intros Hw Hslash Hstar Hname Hcomment Hp.
  destruct (parameter_ok_spec p Hp) as (Hl & _ & Hn & Hg & Hc & Ht).
  unfold parameter_text. rewrite !string_forall_app.
  rewrite (white_space_not x _ Hw Hl), (white_space_not x _ Hw Hg),
    (white_space_not x _ Hw Ht).
  assert (string_forall (fun c => negb (Ascii.eqb c x)) (param_name p) = true)
    as ->.
  { apply (string_forall_impl name_character); [|exact Hn].
    intros c Hc'. now rewrite (Hname c Hc'). }
  cbn [andb]. rewrite andb_true_r.
  destruct (param_comment p) as [body|]; [|reflexivity].
  unfold comment_text. rewrite !string_forall_app. cbn [string_forall].
  rewrite Hslash, Hstar. cbn [negb andb]. rewrite andb_true_r.
  apply (string_forall_impl comment_character); [|exact Hc].
  intros c Hc'. now rewrite (Hcomment c Hc').
Qed.

(** The callback of the map gives back the name of a parameter as it is
    written. *)
Lemma argsTrim_parameter_text (p : parameter) :
  parameter_ok p = true ->
  argsTrimCommentsAndWhiteSpace (parameter_text p) = param_name p.
Proof.
  intros Hp.
  destruct (parameter_ok_spec p Hp) as (Hl & Hne & Hn & Hg & Hc & Ht).
  assert (string_forall (fun c => negb (Ascii.eqb c "/")) (param_name p) = true)
    as Hn_slash.
  { apply (string_forall_impl name_character); [|exact Hn].
    intros c Hc'. destruct (name_character_spec c Hc') as (_ & _ & _ & ->).
    reflexivity. }
  assert (string_forall (fun c => negb (is_white_space c)) (param_name p) = true)
    as Hn_ws.
  { apply (string_forall_impl name_character); [|exact Hn].
    intros c Hc'. destruct (name_character_spec c Hc') as (-> & _).
    reflexivity. }
  unfold argsTrimCommentsAndWhiteSpace, parameter_text.
  rewrite (strip_comment_skip (param_lead p))
    by (now apply white_space_not).
  rewrite (strip_comment_skip (param_name p)) by exact Hn_slash.
  rewrite (strip_comment_skip (param_gap p))
    by (now apply white_space_not).
  assert (strip_comment (comment_text (param_comment p) ++ param_trail p)
          = param_trail p) as ->.
  { destruct (param_comment p) as [body|]; cbn [comment_text].
    - rewrite !append_assoc. apply strip_comment_block.
      + apply (string_forall_impl comment_character); [|exact Hc].
        intros c Hc'. destruct (comment_character_spec c Hc') as (-> & _).
        reflexivity.
      + now apply white_space_not.
    - apply strip_comment_none. now apply white_space_not. }
  apply trim_name; try assumption.
  rewrite string_forall_app. now rewrite Hg, Ht.
Qed.

Lemma parameter_list_text_split (ps : list parameter) :
  forallb parameter_ok ps = true ->
  map argsTrimCommentsAndWhiteSpace (split_comma (parameter_list_text ps))
  = match ps with
    | [] => [""]
    | _ :: _ => map param_name ps
    end.
Proof.
  intros H. destruct ps as [|p ps]; [reflexivity|].
  unfold parameter_list_text.
  change (map parameter_text (p :: ps))
    with (parameter_text p :: map parameter_text ps).
  rewrite split_comma_concat.
  - change (parameter_text p :: map parameter_text ps)
      with (map parameter_text (p :: ps)).
    rewrite map_map. apply map_ext_in. intros q Hq.
    apply argsTrim_parameter_text.
    rewrite forallb_forall in H. now apply H.
  - change (parameter_text p :: map parameter_text ps)
      with (map parameter_text (p :: ps)).
    apply Forall_forall. intros text Hin. apply in_map_iff in Hin as (q & <- & Hq).
    rewrite forallb_forall in H.
    apply parameter_text_without; try reflexivity; [| |now apply H].
    + intros c Hc. now destruct (name_character_spec c Hc) as (_ & -> & _).
    + intros c Hc. now destruct (comment_character_spec c Hc) as (_ & -> & _).
Qed.

Lemma parameter_list_text_no_paren (ps : list parameter) :
  forallb parameter_ok ps = true ->
  string_forall (fun c => negb (Ascii.eqb c ")")) (parameter_list_text ps) = true.
Proof.
  unfold parameter_list_text. induction ps as [|p ps IH]; intros H; [reflexivity|].
  cbn [forallb] in H. apply andb_prop in H as [Hp Hps].
  assert (string_forall (fun c => negb (Ascii.eqb c ")")) (parameter_text p) = true)
    as Hp'.
  { apply parameter_text_without; try reflexivity; [| |exact Hp].
    - intros c Hc. now destruct (name_character_spec c Hc) as (_ & _ & -> & _).
    - intros c Hc. now destruct (comment_character_spec c Hc) as (_ & _ & ->). }
  destruct ps as [|q ps]; [exact Hp'|].
  change (String.concat "," (map parameter_text (p :: q :: ps)))
    with (parameter_text p ++ "," ++ String.concat "," (map parameter_text (q :: ps))).
  rewrite !string_forall_app, Hp', (IH Hps). reflexivity.
Qed.

Lemma names_are_kept (ps : list parameter) :
  forallb parameter_ok ps = true ->
  filter filterUndefined (map param_name ps) = map param_name ps.
Proof.
  induction ps as [|p ps IH]; intros H; [reflexivity|].
  cbn [forallb] in H. apply andb_prop in H as [Hp Hps].
  destruct (parameter_ok_spec p Hp) as (_ & Hne & _).
  cbn [map filter]. unfold filterUndefined at 1. now rewrite Hne, (IH Hps).
Qed.

(** What the code after the match makes of a parameter list as written. *)
Lemma argument_names_of_parameter_list (ps : list parameter) :
  forallb parameter_ok ps = true ->
  argument_names_of_args (parameter_list_text ps) = map param_name ps.
Proof.
  intros H. unfold argument_names_of_args.
  rewrite (parameter_list_text_split ps H).
  destruct ps as [|p ps]; [reflexivity|].
  now apply names_are_kept.
Qed.

Lemma getArgumentNames_parameter_list (v : value) (space : ascii)
    (heading rest : string) (ps : list parameter) :
  method_toString v
  = Some (function_text space heading (parameter_list_text ps) rest) ->
  is_white_space space = true ->
  string_forall heading_character heading = true ->
  forallb parameter_ok ps = true ->
  getArgumentNames v = map param_name ps.
Proof.
  intros Hv Hs Hh Hps.
  rewrite (getArgumentNames_function_text v space heading _ rest Hv Hs Hh
             (parameter_list_text_no_paren ps Hps)).
  now apply argument_names_of_parameter_list.
Qed.

(** X1: for a function whose text is the keyword, a white space, its name
    (or none, and no line break) and a parenthesised list of parameters
    separated by commas, each parameter written as a name (a run of
    characters without white space, comma, closing parenthesis or slash)
    with white space around it and possibly one inline block comment after
    it that holds no comma, no closing parenthesis and no line break,
    [getArgumentNames] returns the names as written, in order, without the
    white space and the comments, whatever the body is. *)
Theorem getArgumentNames_reads_declared_names (v : value) (space : ascii)
    (heading rest : string) (ps : list parameter) :
  method_toString v
  = Some (function_text space heading (parameter_list_text ps) rest) ->
  is_white_space space = true ->
  string_forall heading_character heading = true ->
  forallb parameter_ok ps = true ->
  getArgumentNames v = map param_name ps.
Proof.
  intros Hv Hs Hh Hps.
  rewrite (getArgumentNames_function_text v space heading _ rest Hv Hs Hh
             (parameter_list_text_no_paren ps Hps)).
  unfold argument_names_of_args. rewrite (parameter_list_text_split ps Hps).
  destruct ps as [|p ps]; [reflexivity|].
  now apply names_are_kept.
Qed.

(** ** Filtering candidates *)

Lemma isFunction_name (c : value) :
  isFunction c = true -> get_property c p_name = Some (name_of c).
Proof.
  unfold name_of. intros H.
  now destruct (isFunction_get_property c p_name H) as [v ->].
Qed.

Lemma filter_callback_events (c : value) (i : nat) (st : State) :
  errorSubscriberFunctionsFilter c i st
  = (Normal (passes_filter c),
     add_events (if _isLoggingEnabled st then rejection_lines c i else []) st).
Proof.
  unfold errorSubscriberFunctionsFilter, passes_filter, rejection_lines.
  destruct (isFunction c) eqn:F; cbn [negb andb].
  - destruct (first_is_error (getArgumentNames c)); cbn [negb].
    + unfold ret. now destruct (_isLoggingEnabled st); rewrite add_events_nil.
    + unfold bind, read, read_property, console, emit, ret.
      rewrite (isFunction_name c F).
      destruct (_isLoggingEnabled st) eqn:L.
      * unfold add_events. cbn. rewrite L, <- app_assoc. reflexivity.
      * now rewrite add_events_nil.
  - unfold bind, read, console, emit, ret.
    destruct (_isLoggingEnabled st) eqn:L.
    + unfold add_events. cbn. rewrite L, <- app_assoc. reflexivity.
    + now rewrite add_events_nil.
Qed.

Lemma array_filter_events (elems : list value) (i : nat) (st : State) :
  array_filter errorSubscriberFunctionsFilter elems i st
  = (Normal (filter passes_filter elems),
     add_events (if _isLoggingEnabled st then rejections elems i else []) st).
Proof.
  revert i st. induction elems as [|x rest IH]; intros i st; cbn [array_filter].
  - unfold ret. cbn. now destruct (_isLoggingEnabled st); rewrite add_events_nil.
  - unfold bind. rewrite filter_callback_events, IH. unfold ret.
    cbn [filter rejections add_events _isLoggingEnabled].
    rewrite add_events_app.
    destruct (_isLoggingEnabled st); destruct (passes_filter x); reflexivity.
Qed.

Lemma buildSubscriberList_events (candidates : list value) (st : State) :
  buildSubscriberList (VArray candidates) st
  = (Normal (filter passes_filter candidates),
     add_events (if _isLoggingEnabled st then rejections candidates 0 else []) st).
Proof.
  unfold buildSubscriberList. cbn [with_default]. apply array_filter_events.
Qed.

Lemma rejection_lines_length (c : value) (i : nat) :
  List.length (rejection_lines c i) = if passes_filter c then 0 else 2.
Proof.
  unfold rejection_lines, passes_filter.
  now destruct (isFunction c), (first_is_error (getArgumentNames c)).
Qed.

Lemma rejections_length (candidates : list value) (i : nat) :
  List.length (rejections candidates i)
  + 2 * List.length (filter passes_filter candidates)
  = 2 * List.length candidates.
Proof.
  revert i. induction candidates as [|c rest IH]; intros i; [reflexivity|].
  cbn [rejections filter]. rewrite length_app, rejection_lines_length.
  specialize (IH (S i)).
  destruct (passes_filter c); cbn [List.length]; lia.
Qed.

Lemma rejections_warnings (candidates : list value) (i : nat) :
  forallb is_warning (rejections candidates i) = true.
Proof.
  revert i. induction candidates as [|c rest IH]; intros i; [reflexivity|].
  cbn [rejections]. rewrite forallb_app, IH, andb_true_r.
  unfold rejection_lines.
  now destruct (isFunction c), (first_is_error (getArgumentNames c)).
Qed.

Lemma rejections_app (pre post : list value) (i : nat) :
  rejections (pre ++ post) i
  = (rejections pre i ++ rejections post (i + List.length pre))%list.
Proof.
  revert i. induction pre as [|c pre IH]; intros i; cbn [rejections app List.length].
  - now rewrite Nat.add_0_r.
  - rewrite IH, <- app_assoc. do 3 f_equal. lia.
Qed.

Lemma rejections_of_kept (candidates : list value) (i : nat) :
  rejections (filter passes_filter candidates) i = [].
Proof.
  revert i. induction candidates as [|c rest IH]; intros i; [reflexivity|].
  cbn [filter]. destruct (passes_filter c) eqn:P; [|apply IH].
  cbn [rejections]. rewrite IH, app_nil_r.
  pose proof (rejection_lines_length c i) as H. rewrite P in H.
  now destruct (rejection_lines c i).
Qed.

(** X3: while logging is enabled, [buildSubscriberList] writes two warnings
    for each candidate that it drops and nothing else: the number of lines is
    twice the number of dropped candidates, every line is a warning, no
    candidate is called, and the flags and the stored list are as before
    (the result is returned, not stored).  While logging is disabled it
    leaves the state as it is. *)
Theorem buildSubscriberList_warns_twice_per_rejection
    (candidates : list value) (st : State) :
  exists kept events,
    buildSubscriberList (VArray candidates) st
    = (Normal kept, add_events events st)
    /\ List.length events
       = (if _isLoggingEnabled st
          then 2 * (List.length candidates - List.length kept)
          else 0)
    /\ forallb is_warning events = true.
Proof.
  exists (filter passes_filter candidates).
  exists (if _isLoggingEnabled st then rejections candidates 0 else []).
  split; [apply buildSubscriberList_events|].
  destruct (_isLoggingEnabled st); [|split; reflexivity].
  split; [|apply rejections_warnings].
  pose proof (rejections_length candidates 0). lia.
Qed.

(** X4: a candidate that is not a function is reported with its string form
    and with its index in the array that was passed, not its position among
    the reported candidates. *)
Theorem buildSubscriberList_reports_index
    (pre post : list value) (c : value) (st : State) :
  _isLoggingEnabled st = true ->
  isFunction c = false ->
  exists kept before after,
    buildSubscriberList (VArray (pre ++ c :: post)) st
    = (Normal kept,
       add_events
         (before
          ++ [Console console_warn
                (VString ("Skipping error subscriber: " ++ to_string c
                          ++ " at errorSubscribers index "
                          ++ nat_to_string (List.length pre)));
              Console console_warn (VString "Subscriber is not a function")]
          ++ after) st).
Proof.
  intros L F. exists (filter passes_filter (pre ++ c :: post)).
  exists (rejections pre 0), (rejections post (S (List.length pre))).
  rewrite buildSubscriberList_events, L, rejections_app.
  cbn [rejections Nat.add]. unfold rejection_lines at 1. now rewrite F.
Qed.

(** X5: filtering again changes nothing.  Passing the result of
    [buildSubscriberList] back to it returns the same list and writes no
    warning, also while logging is enabled. *)
Theorem buildSubscriberList_idempotent
    (candidates kept : list value) (st st' st2 : State) :
  buildSubscriberList (VArray candidates) st = (Normal kept, st') ->
  buildSubscriberList (VArray kept) st2 = (Normal kept, st2).
Proof.
  rewrite buildSubscriberList_events. intros H. inversion H; subst kept.
  rewrite buildSubscriberList_events, rejections_of_kept.
  replace (filter passes_filter (filter passes_filter candidates))
    with (filter passes_filter candidates).
  - now destruct (_isLoggingEnabled st2); rewrite add_events_nil.
  - symmetry. apply forallb_filter_id. apply forallb_forall.
    intros x Hx. now apply filter_In in Hx.
Qed.

Lemma passes_filter_function_text (f : func) (space : ascii)
    (heading rest : string) (ps : list parameter) :
  fn_source f = function_text space heading (parameter_list_text ps) rest ->
  is_white_space space = true ->
  string_forall heading_character heading = true ->
  forallb parameter_ok ps = true ->
  hd_error (map param_name ps) = Some "error" ->
  passes_filter (VFunction f) = true.
Proof.
  intros Hf Hs Hh Hps Hhd. unfold passes_filter. cbn [andb].
  change (isFunction (VFunction f)) with true. cbn [andb].
  rewrite (getArgumentNames_parameter_list (VFunction f) space heading rest ps);
    try assumption.
  - now apply first_is_error_hd.
  - cbn. now rewrite Hf.
Qed.

(** X6: a function whose text has the form of X1 (the keyword, a white
    space, the name on the same line, parameters written as a run of
    characters without white space, comma, closing parenthesis or slash,
    with white space around it and at most one inline block comment after
    it, without comma, closing parenthesis or line break in it) and whose
    first parameter is written as error, nothing else, is kept by
    [buildSubscriberList], wherever it stands among the candidates. *)
Theorem buildSubscriberList_keeps_error_first
    (candidates : list value) (f : func) (space : ascii)
    (heading rest : string) (ps : list parameter) (st : State) :
  In (VFunction f) candidates ->
  fn_source f = function_text space heading (parameter_list_text ps) rest ->
  is_white_space space = true ->
  string_forall heading_character heading = true ->
  forallb parameter_ok ps = true ->
  hd_error (map param_name ps) = Some "error" ->
  exists kept st',
    buildSubscriberList (VArray candidates) st = (Normal kept, st')
    /\ In (VFunction f) kept.
Proof.
  intros Hin Hf Hs Hh Hps Hhd. eexists. eexists.
  split; [apply buildSubscriberList_events|].
  apply filter_In. split; [exact Hin|].
  now apply (passes_filter_function_text f space heading rest ps).
Qed.

Lemma passes_filter_needs_parameter_list (f : func) :
  ~ has_parameter_list (fn_source f) -> passes_filter (VFunction f) = false.
Proof.
  intros H. unfold passes_filter, getArgumentNames. cbn [method_toString to_string].
  destruct (match_function_args (fn_source f)) as [args|] eqn:E.
  - elim H. now apply match_function_args_some with args.
  - reflexivity.
Qed.

(** X7: a function whose text shows no parameter list after a function
    keyword (an arrow function, a method, a function written without a space
    after the keyword) is never kept, whatever its parameters are; while
    logging is enabled the two warnings about the signature name it. *)
Theorem buildSubscriberList_drops_without_keyword
    (pre post : list value) (f : func) (st : State) :
  ~ has_parameter_list (fn_source f) ->
  exists kept events,
    buildSubscriberList (VArray (pre ++ VFunction f :: post)) st
    = (Normal kept, add_events events st)
    /\ ~ In (VFunction f) kept
    /\ (_isLoggingEnabled st = true ->
        exists before after,
          events
          = (before
             ++ [Console console_warn
                   (VString ("Skipping error subscriber: " ++ fn_name f));
                 Console console_warn
                   (VString "First argument of subscriber function must be named error")]
             ++ after)%list).
Proof.
  intros H. pose proof (passes_filter_needs_parameter_list f H) as P.
  eexists. eexists. split; [apply buildSubscriberList_events|]. split.
  - intros Hin. apply filter_In in Hin as [_ Hin]. congruence.
  - intros ->. exists (rejections pre 0), (rejections post (S (List.length pre))).
    rewrite rejections_app. cbn [rejections Nat.add].
    unfold rejection_lines at 1. unfold passes_filter in P.
    change (isFunction (VFunction f)) with true in *. cbn [andb] in P.
    now rewrite P.
Qed.

(** ** Initialisation *)

(** The call with an array, with everything it writes. *)
Lemma initErrorCatchNotifier_array_trace
    (candidates : list value) (enabled loggingEnabled : value) (st : State) :
  let e := truthy (with_default enabled (VBool false)) in
  let l := truthy (with_default loggingEnabled (VBool false)) in
  let kept := filter passes_filter candidates in
  initErrorCatchNotifier (VArray candidates) enabled loggingEnabled st
  = (Normal tt,
     {| _isEnabled := e && negb (Nat.eqb (List.length kept) 0);
        _isLoggingEnabled := l;
        _errorSubscribers := kept;
        trace := trace st
                 ++ (if l then rejections candidates 0 else [])
                 ++ (if e && Nat.eqb (List.length kept) 0 && l
                     then [no_subscribers_warning] else []) |}).
Proof.
  intros e l kept. unfold initErrorCatchNotifier. cbn [with_default isArray negb].
  fold e l.
  assert (forall st0,
            (if l then enableLogging else disableLogging) st0
            = (Normal tt,
               {| _isEnabled := _isEnabled st0; _isLoggingEnabled := l;
                  _errorSubscribers := _errorSubscribers st0;
                  trace := trace st0 |})) as Hl.
  { intros st0. now destruct l. }
  unfold bind at 1. rewrite Hl. unfold bind at 1.
  rewrite buildSubscriberList_events. fold kept.
  cbn [_isLoggingEnabled]. clearbody kept e l.
  unfold bind, assign_errorSubscribers, enableErrorCatching,
    disableErrorCatching, assign_isEnabled, read, console, emit, ret, bind,
    no_subscribers_warning.
  cbn.
  destruct e; cbn.
  - destruct (Nat.eqb (List.length kept) 0); destruct l; cbn;
      rewrite <- ?app_assoc, ?app_nil_r; reflexivity.
  - destruct l; cbn; rewrite ?app_nil_r; reflexivity.
Qed.

(** X8: after [initErrorCatchNotifier] with an array, the stored list is
    what [buildSubscriberList] returns for the array, [getIsLoggingEnabled]
    answers the truth value of the third argument, and [getIsEnabled] answers
    the truth value of the second argument unless no candidate was kept, when
    it answers false.  Whatever was configured before is replaced: the
    outcome does not depend on the earlier flags and list.  An argument left
    out counts as false. *)
Theorem initErrorCatchNotifier_round_trip
    (candidates kept : list value) (enabled loggingEnabled : value)
    (st st_b : State) :
  buildSubscriberList (VArray candidates) st = (Normal kept, st_b) ->
  exists st',
    initErrorCatchNotifier (VArray candidates) enabled loggingEnabled st
    = (Normal tt, st')
    /\ _errorSubscribers st' = kept
    /\ getIsLoggingEnabled st'
       = (Normal (truthy (with_default loggingEnabled (VBool false))), st')
    /\ getIsEnabled st'
       = (Normal (truthy (with_default enabled (VBool false))
                  && negb (Nat.eqb (List.length kept) 0)), st').
Proof.
  rewrite buildSubscriberList_events. intros H. inversion H; subst kept.
  eexists. split; [apply initErrorCatchNotifier_array_trace|].
  repeat split.
Qed.

(** X9: when catching is asked for and no candidate is kept, catching stays
    off, and while logging is asked for the last line written is the warning
    that no valid subscriber was provided, after the warnings about the
    candidates. *)
Theorem initErrorCatchNotifier_without_valid_subscriber
    (candidates : list value) (enabled loggingEnabled : value)
    (st st_b : State) :
  buildSubscriberList (VArray candidates) st = (Normal [], st_b) ->
  truthy (with_default enabled (VBool false)) = true ->
  truthy (with_default loggingEnabled (VBool false)) = true ->
  exists st' events,
    initErrorCatchNotifier (VArray candidates) enabled loggingEnabled st
    = (Normal tt, st')
    /\ _isEnabled st' = false
    /\ List.length events = 2 * List.length candidates
    /\ forallb is_warning events = true
    /\ trace st'
       = (trace st ++ events
          ++ [Console console_warn
                (VString "No valid error subscribers provided. Use init to pass valid error subscribers")])%list.
Proof.
  rewrite buildSubscriberList_events. intros H He Hl.
  inversion H as [[Hkept Hst]]. clear H Hst.
  exists (snd (initErrorCatchNotifier (VArray candidates) enabled loggingEnabled st)).
  exists (rejections candidates 0).
  rewrite initErrorCatchNotifier_array_trace. cbv zeta.
  rewrite He, Hl, Hkept. cbn. repeat split.
  - pose proof (rejections_length candidates 0) as Hlen.
    rewrite Hkept in Hlen. cbn in Hlen. lia.
  - apply rejections_warnings.
Qed.

(** ** The stored list *)





(** ** Setters *)

(** X11: [enableLogging] and [enableErrorCatching] leave the same flags and
    the same list whichever is called first, but not the same output: with
    an empty list, the warning is written only when logging was enabled
    first. *)
Theorem enableLogging_enableErrorCatching_order (st : State) :
  let logging_first := snd (enableErrorCatching (snd (enableLogging st))) in
  let catching_first := snd (enableLogging (snd (enableErrorCatching st))) in
  _isEnabled logging_first = _isEnabled catching_first
  /\ _isLoggingEnabled logging_first = true
  /\ _isLoggingEnabled catching_first = true
  /\ _errorSubscribers logging_first = _errorSubscribers catching_first
  /\ (_errorSubscribers st = [] -> _isLoggingEnabled st = false ->
      trace logging_first = (trace st ++ [no_subscribers_warning])%list
      /\ trace catching_first = trace st).
Proof.
  cbv zeta. destruct (_errorSubscribers st) as [|s subs] eqn:E.
  - rewrite (enableErrorCatching_without_subscribers st E).
    rewrite (enableErrorCatching_without_subscribers (snd (enableLogging st)))
      by exact E.
    cbn. split; [|split; [|split; [|split]]]; try reflexivity.
    intros _ L. rewrite L. cbn. now rewrite app_nil_r.
  - rewrite (enableErrorCatching_with_subscribers st) by (rewrite E; discriminate).
    rewrite (enableErrorCatching_with_subscribers (snd (enableLogging st)))
      by (cbn; rewrite E; discriminate).
    cbn. split; [|split; [|split; [|split]]]; try reflexivity.
    discriminate.
Qed.

(** X12: while a subscriber is stored, disabling and enabling catching again
    brings the module back to the state it was in: nothing is written and
    the flag is true again. *)
Theorem disable_then_enable_restores (st : State) :
  _isEnabled st = true ->
  _errorSubscribers st <> [] ->
  disableErrorCatching st
  = (Normal true,
     {| _isEnabled := false; _isLoggingEnabled := _isLoggingEnabled st;
        _errorSubscribers := _errorSubscribers st; trace := trace st |})
  /\ enableErrorCatching (snd (disableErrorCatching st)) = (Normal tt, st).
Proof.
  intros He Hs. split; [reflexivity|].
  rewrite enableErrorCatching_with_subscribers by exact Hs.
  destruct st. cbn in *. now subst.
Qed.

(** ** Wrapped calls and manual reports *)

Section Wrapped.

Local Open Scope list_scope.

Variable behaviour : func -> value -> list value -> completion value.

Lemma apply_method_function (f : func) (this : value) (args : list value)
    (st : State) :
  apply_method behaviour (VFunction f) this args st
  = (behaviour f this args, add_events [Call (VFunction f) this args] st).
Proof.
  reflexivity.
Qed.

Lemma wrap_enabled (target options this : value) (args : list value)
    (st : State) :
  _isEnabled st = true ->
  wrap behaviour target options this args st
  = try_catch (apply_method behaviour target this args)
      (fun error =>
         bind (notifyErrorSubscribers behaviour error options)
              (fun _ => ret VUndefined)) st.
Proof.
  intros He. unfold wrap, wrappedFunction, bind at 1, read. now rewrite He.
Qed.

Lemma wrap_disabled (target options this : value) (args : list value)
    (st : State) :
  _isEnabled st = false ->
  wrap behaviour target options this args st
  = apply_method behaviour target this args st.
Proof.
  intros He. unfold wrap, wrappedFunction, bind at 1, read. now rewrite He.
Qed.

(** X13: when the target returns, the wrapped function returns the same
    value whether catching is enabled or not; no subscriber is called and
    nothing is written. *)
Theorem wrap_returns_what_target_returns
    (f : func) (options this result : value) (args : list value) (st : State) :
  behaviour f this args = Normal result ->
  wrap behaviour (VFunction f) options this args st
  = (Normal result, add_events [Call (VFunction f) this args] st).
Proof.
  intros Hf. destruct (_isEnabled st) eqn:He.
  - rewrite wrap_enabled by exact He. unfold try_catch.
    now rewrite apply_method_function, Hf.
  - rewrite wrap_disabled by exact He.
    now rewrite apply_method_function, Hf.
Qed.

(** A target that cannot be called and has no callable [apply]. *)
Lemma apply_method_not_callable (target this : value) (args : list value)
    (st : State) :
  callable target = false ->
  match get_property target p_apply with
  | Some apply => callable apply = false
  | None => True
  end ->
  exists message,
    apply_method behaviour target this args st = (Throw (TypeError message), st).
Proof.
  intros Hc Ha. unfold apply_method, bind, read_property. rewrite Hc.
  destruct (get_property target p_apply) as [apply|].
  - unfold ret, call_value. destruct apply; try discriminate; eexists; reflexivity.
  - eexists. reflexivity.
Qed.

(** X14: wrapping a value that is not a function does not fail when [wrap]
    is called but when the wrapped function is.  While catching is disabled
    the [TypeError] reaches the caller and nothing else happens; while it is
    enabled the [TypeError] is reported to the subscribers like any error of
    a target, and the call returns [undefined]. *)
Theorem wrap_of_a_value_that_is_not_callable
    (target options this : value) (args : list value) (st : State) :
  callable target = false ->
  match get_property target p_apply with
  | Some apply => callable apply = false
  | None => True
  end ->
  exists message,
    (_isEnabled st = false ->
     wrap behaviour target options this args st = (Throw (TypeError message), st))
    /\ (_isEnabled st = true ->
        wrap behaviour target options this args st
        = bind (notifyErrorSubscribers behaviour (TypeError message) options)
               (fun _ => ret VUndefined) st).
Proof.
  intros Hc Ha.
  destruct (apply_method_not_callable target this args st Hc Ha) as [message Hm].
  exists message. split; intros He.
  - now rewrite wrap_disabled.
  - rewrite wrap_enabled by exact He. unfold try_catch. now rewrite Hm.
Qed.

Lemma cycle_calls_when_none_throws (logging : bool) (subs : list value)
    (error options : value) :
  (forall s, In s subs -> ~ subscriber_throws behaviour s error options) ->
  calls_of (cycle_events behaviour logging subs error options)
  = map (fun s => subscriber_call s error options) subs.
Proof.
  induction subs as [|s later IH]; intros H; [reflexivity|].
  cbn [cycle_events map].
  rewrite not_throws_goes_on by (apply H; now left).
  rewrite calls_of_app, calls_of_turn, IH; [reflexivity|].
  intros q Hq. apply H. now right.
Qed.

Lemma cycle_only_calls_without_logging (subs : list value)
    (error options : value) :
  cycle_events behaviour false subs error options
  = calls_of (cycle_events behaviour false subs error options).
Proof.
  induction subs as [|s later IH]; [reflexivity|].
  cbn [cycle_events]. rewrite calls_of_app, calls_of_turn.
  assert (turn_events behaviour false s error options
          = [subscriber_call s error options]) as ->.
  { unfold turn_events.
    assert (own_events false s error options = []) as -> by now destruct s.
    now destruct (subscriber_outcome behaviour s error options). }
  destruct (turn_goes_on behaviour false s error options); cbn.
  - now rewrite <- IH.
  - reflexivity.
Qed.

(** X16: when no stored subscriber throws, a report calls every subscriber
    once, in the order of the list, with the error, the options and a
    failback for its name, whether logging is enabled or not; while logging
    is disabled nothing else happens. *)
Theorem notifyErrorSubscribers_calls_all_when_none_throws
    (error options : value) (st : State) :
  Forall (fun s => callable s = true) (_errorSubscribers st) ->
  (forall s, In s (_errorSubscribers st) ->
             ~ subscriber_throws behaviour s error options) ->
  exists events,
    notifyErrorSubscribers behaviour error options st
    = (Normal tt, add_events events st)
    /\ calls_of events
       = map (fun s => Call s VUndefined
                            [error; options;
                             makeErrorSubscriberFailback (name_of s)])
             (_errorSubscribers st)
    /\ (_isLoggingEnabled st = false -> events = calls_of events).
Proof.
  intros Hc Hn. eexists. split; [now apply notifyErrorSubscribers_cycle|]. split.
  - now apply cycle_calls_when_none_throws.
  - intros ->. apply cycle_only_calls_without_logging.
Qed.

(** X17: the whole way.  After [initErrorCatchNotifier] with an array of
    which at least one candidate is kept and with a truthy second argument,
    a wrapped function whose target throws returns [undefined], and the
    first kept candidate is called with the error and the options given to
    [wrap], right after the target. *)
Theorem init_then_wrap_notifies_first_subscriber
    (candidates rest : list value) (first enabled loggingEnabled : value)
    (f : func) (options this E : value) (args : list value)
    (st st_b : State) :
  buildSubscriberList (VArray candidates) st = (Normal (first :: rest), st_b) ->
  truthy (with_default enabled (VBool false)) = true ->
  behaviour f this args = Throw E ->
  exists st1 events,
    initErrorCatchNotifier (VArray candidates) enabled loggingEnabled st
    = (Normal tt, st1)
    /\ wrap behaviour (VFunction f) options this args st1
       = (Normal VUndefined,
          add_events
            (Call (VFunction f) this args
             :: Call first VUndefined
                     [E; options; makeErrorSubscriberFailback (name_of first)]
             :: events) st1).
Proof.
  rewrite buildSubscriberList_events. intros H He Hf.
  inversion H as [[Hkept Hst]]. clear H Hst.
  eexists. eexists. split; [apply initErrorCatchNotifier_array_trace|].
  cbv zeta. rewrite He, Hkept. cbn [List.length Nat.eqb negb andb].
  rewrite wrap_enabled by reflexivity. unfold try_catch.
  rewrite apply_method_function, Hf. unfold bind.
  rewrite notifyErrorSubscribers_cycle.
  - cbn [add_events _isLoggingEnabled _errorSubscribers cycle_events].
    unfold ret. rewrite add_events_app. unfold turn_events.
    cbn [app]. reflexivity.
  - cbn [add_events _errorSubscribers]. rewrite <- Hkept.
    apply Forall_forall. intros s Hs. apply filter_In in Hs as [_ Hs].
    now apply passes_filter_callable.
Qed.

(** X18: a wrapped call whose target throws is a manual report.  While
    catching is enabled, it leaves the module as the call of
    [notifyErrorSubscribers] with the thrown error and the options given to
    [wrap] does after the target was called, and returns [undefined] when the
    report returns. *)
Theorem wrap_reports_like_notifyErrorSubscribers
    (f : func) (options this E : value) (args : list value) (st : State) :
  _isEnabled st = true ->
  behaviour f this args = Throw E ->
  wrap behaviour (VFunction f) options this args st
  = bind (notifyErrorSubscribers behaviour E options)
         (fun _ => ret VUndefined)
         (add_events [Call (VFunction f) this args] st).
Proof.
  intros He Hf. rewrite wrap_enabled by exact He. unfold try_catch.
  now rewrite apply_method_function, Hf.
Qed.

End Wrapped.

(** * The further properties at the fixtures *)

Lemma getArgumentNames_reads_declared_names_witness :
  getArgumentNames (VFunction functionFixture) = ["argument1"; "argument2"].
Proof.
  exact (getArgumentNames_reads_declared_names (VFunction functionFixture)
           " "%char "" " { return true; }" functionFixture_parameters
           eq_refl eq_refl eq_refl eq_refl).
Defined.

Lemma getArgumentNames_reads_first_group_witness :
  getArgumentNames (VFunction errorSubscriber)
  = getArgumentNames (VFunction failingSubscriber).
Proof.
  exact (getArgumentNames_reads_first_group
           (VFunction errorSubscriber) (VFunction failingSubscriber)
           " "%char " "%char "errorSubscriber" "failingSubscriber" "error"
           " {}" " { throw 'boom'; }"
           eq_refl eq_refl eq_refl eq_refl eq_refl eq_refl eq_refl).
Defined.

Lemma buildSubscriberList_reports_index_witness :
  exists kept before after,
    buildSubscriberList (VArray [VFunction errorSubscriber; VObject []])
      (snd (enableLogging initial_state))
    = (Normal kept,
       add_events
         (before
          ++ [Console console_warn
                (VString "Skipping error subscriber: [object Object] at errorSubscribers index 1");
              Console console_warn (VString "Subscriber is not a function")]
          ++ after)%list
         (snd (enableLogging initial_state))).
Proof.
  exact (buildSubscriberList_reports_index [VFunction errorSubscriber] []
           (VObject []) (snd (enableLogging initial_state)) eq_refl eq_refl).
Defined.

Lemma buildSubscriberList_idempotent_witness :
  buildSubscriberList (VArray [VFunction errorSubscriber])
    (snd (enableLogging initial_state))
  = (Normal [VFunction errorSubscriber], snd (enableLogging initial_state)).
Proof.
  exact (buildSubscriberList_idempotent
           [VFunction errorSubscriber; VFunction badErrorSubscriber]
           [VFunction errorSubscriber] initial_state initial_state
           (snd (enableLogging initial_state)) eq_refl).
Defined.

Lemma buildSubscriberList_keeps_error_first_witness :
  exists kept st',
    buildSubscriberList
      (VArray [VObject []; VFunction badErrorSubscriber; VFunction errorSubscriber])
      initial_state
    = (Normal kept, st')
    /\ In (VFunction errorSubscriber) kept.
Proof.
  apply (buildSubscriberList_keeps_error_first
           [VObject []; VFunction badErrorSubscriber; VFunction errorSubscriber]
           errorSubscriber " "%char "errorSubscriber" " {}"
           errorSubscriber_parameters initial_state);
    try reflexivity.
  right. right. now left.
Defined.

Lemma buildSubscriberList_drops_without_keyword_witness :
  exists kept events,
    buildSubscriberList (VArray [VFunction arrowSubscriber]) initial_state
    = (Normal kept, add_events events initial_state)
    /\ ~ In (VFunction arrowSubscriber) kept.
Proof.
  destruct (buildSubscriberList_drops_without_keyword [] [] arrowSubscriber
              initial_state)
    as (kept & events & Heq & Hnot & _).
  - intros Hp. now apply match_function_args_complete in Hp.
  - now exists kept, events.
Defined.

Lemma initErrorCatchNotifier_round_trip_witness :
  exists st',
    initErrorCatchNotifier
      (VArray [VFunction errorSubscriber; VFunction badErrorSubscriber])
      (VBool true) VUndefined initial_state
    = (Normal tt, st')
    /\ _errorSubscribers st' = [VFunction errorSubscriber]
    /\ getIsLoggingEnabled st' = (Normal false, st')
    /\ getIsEnabled st' = (Normal true, st').
Proof.
  exact (initErrorCatchNotifier_round_trip
           [VFunction errorSubscriber; VFunction badErrorSubscriber]
           [VFunction errorSubscriber] (VBool true) VUndefined
           initial_state initial_state eq_refl).
Defined.

Lemma initErrorCatchNotifier_without_valid_subscriber_witness :
  exists st' events,
    initErrorCatchNotifier (VArray [VFunction badErrorSubscriber])
      (VBool true) (VBool true) initial_state
    = (Normal tt, st')
    /\ _isEnabled st' = false
    /\ List.length events = 2
    /\ forallb is_warning events = true
    /\ trace st'
       = (events
          ++ [Console console_warn
                (VString "No valid error subscribers provided. Use init to pass valid error subscribers")])%list.
Proof.
  exact (initErrorCatchNotifier_without_valid_subscriber
           [VFunction badErrorSubscriber] (VBool true) (VBool true)
           initial_state initial_state eq_refl eq_refl eq_refl).
Defined.


Lemma enableLogging_enableErrorCatching_order_witness :
  trace (snd (enableErrorCatching (snd (enableLogging initial_state))))
  = [no_subscribers_warning]
  /\ trace (snd (enableLogging (snd (enableErrorCatching initial_state)))) = [].
Proof.
  exact (proj2 (proj2 (proj2 (proj2
           (enableLogging_enableErrorCatching_order initial_state))))
           eq_refl eq_refl).
Defined.

Lemma disable_then_enable_restores_witness :
  enableErrorCatching (snd (disableErrorCatching state_with_subscriber))
  = (Normal tt, state_with_subscriber).
Proof.
  refine (proj2 (disable_then_enable_restores state_with_subscriber eq_refl _)).
  discriminate.
Defined.

Lemma wrap_returns_what_target_returns_witness :
  wrap fixture_behaviour (VFunction errorSubscriber) VNull VUndefined
       [VNumber 1 eq_refl] state_with_subscriber
  = (Normal VUndefined,
     add_events [Call (VFunction errorSubscriber) VUndefined [VNumber 1 eq_refl]]
                state_with_subscriber).
Proof.
  exact (wrap_returns_what_target_returns fixture_behaviour errorSubscriber
           VNull VUndefined VUndefined [VNumber 1 eq_refl] state_with_subscriber
           eq_refl).
Defined.

Lemma wrap_of_a_value_that_is_not_callable_witness :
  exists message,
    wrap fixture_behaviour VUndefined VNull VUndefined [] initial_state
    = (Throw (TypeError message), initial_state).
Proof.
  destruct (wrap_of_a_value_that_is_not_callable fixture_behaviour VUndefined
              VNull VUndefined [] initial_state eq_refl I)
    as (message & Hdisabled & _).
  exists message. exact (Hdisabled eq_refl).
Defined.

Lemma notifyErrorSubscribers_calls_all_when_none_throws_witness :
  exists events,
    notifyErrorSubscribers fixture_behaviour testError VNull state_with_subscriber
    = (Normal tt, add_events events state_with_subscriber)
    /\ calls_of events
       = [Call (VFunction errorSubscriber) VUndefined
               [testError; VNull; VFailback (VString "errorSubscriber")]].
Proof.
  destruct (notifyErrorSubscribers_calls_all_when_none_throws fixture_behaviour
              testError VNull state_with_subscriber)
    as (events & Heq & Hcalls & _).
  - repeat constructor.
  - intros s [<- | []] [x Hx]. discriminate.
  - exists events. split; [exact Heq | exact Hcalls].
Defined.

Lemma init_then_wrap_notifies_first_subscriber_witness :
  exists st1 events,
    initErrorCatchNotifier (VArray [VFunction errorSubscriber]) (VBool true)
      VUndefined initial_state
    = (Normal tt, st1)
    /\ wrap fixture_behaviour (VFunction errorFunction) VNull VUndefined [] st1
       = (Normal VUndefined,
          add_events
            (Call (VFunction errorFunction) VUndefined []
             :: Call (VFunction errorSubscriber) VUndefined
                     [testError; VNull; VFailback (VString "errorSubscriber")]
             :: events) st1).
Proof.
  exact (init_then_wrap_notifies_first_subscriber fixture_behaviour
           [VFunction errorSubscriber] [] (VFunction errorSubscriber)
           (VBool true) VUndefined errorFunction VNull VUndefined testError []
           initial_state initial_state eq_refl eq_refl eq_refl).
Defined.

Lemma wrap_reports_like_notifyErrorSubscribers_witness :
  wrap fixture_behaviour (VFunction errorFunction) VNull VUndefined []
       state_with_subscriber
  = bind (notifyErrorSubscribers fixture_behaviour testError VNull)
         (fun _ => ret VUndefined)
         (add_events [Call (VFunction errorFunction) VUndefined []]
                     state_with_subscriber).
Proof.
  exact (wrap_reports_like_notifyErrorSubscribers fixture_behaviour
           errorFunction VNull VUndefined testError [] state_with_subscriber
           eq_refl eq_refl).
Defined.
